(** * Good Works Stopwatch: the day tracker

    A shallow embedding of the time-tracking core of the application:

    - [Storage]: the persistence layer, the [@/lib/storage] part of
      [client/src/lib/utils.ts] ([loadTodayData], [loadWeeklyData],
      [saveData], [archiveDay], [clearAllData], [exportDataToJson],
      [importDataFromJson]) over a model of [localStorage] and of
      [JSON.parse] / [JSON.stringify];
    - [Hook]: the session state machine of
      [client/src/hooks/useGoodWorks.ts]
      ([stopActive], [startCategory], [startTimer], [addCategory],
      [editCategory], [deleteCategory]) together with the interval
      callbacks the browser runs for it;
    - the display helpers of [client/src/lib/utils.ts] ([formatTime],
      [getTotalTime], [getMostTimeSpentCategory]);
    - [Summary]: the accumulation of the days of a period into one
      entry per category, of the [TimeSummary] component;
    - [Color]: the conversions [hexToRgb] and [rgbToHex] of
      [client/src/components/ColorPicker.tsx].

    Numbers are JavaScript numbers restricted to the integers the
    application counts with (seconds, milliseconds, a version tag),
    plus [NaN].  Strings are the UTF-8 text of the JavaScript
    strings. *)

From Stdlib Require Import ZArith Ascii.
From stdpp Require Import gmap strings list fin_maps pretty.

Local Open Scope string_scope.
Local Open Scope list_scope.
Local Open Scope nat_scope.
Set Warnings "-register-all".
Set Default Proof Using "Type".

(** ** JavaScript values shared by both layers *)

(** A JavaScript number: an integer, or [NaN]. *)
Inductive number :=
  | Num (z : Z)
  | NaN.

(** [a + b] on numbers. *)
Definition number_add (a b : number) : number :=
  match a, b with
  | Num x, Num y => Num (x + y)
  | _, _ => NaN
  end.

(** [a > b] on numbers: every comparison with [NaN] is false. *)
Definition number_gt (a b : number) : bool :=
  match a, b with
  | Num x, Num y => bool_decide (x > y)%Z
  | _, _ => false
  end.

(** [interface CategoryData { time: number; color: string }] *)
Record CategoryData := mkCategoryData {
  time : number;
  color : string;
}.

(** [interface DayData { date: string; categories: Record<string, CategoryData> }].
    The categories are listed in the enumeration order of the object. *)
Record DayData := mkDayData {
  date : string;
  categories : list (string * CategoryData);
}.

(** Exceptions the code can raise. *)
Inductive exn :=
  | SyntaxError
  | TypeError
  | Error (msg : string).

(** The result of running a piece of code: a value, or an exception. *)
Inductive outcome (A : Type) :=
  | Ok (a : A)
  | Throw (e : exn).
Arguments Ok {A} a.
Arguments Throw {A} e.

(** [getTotalTime] of [client/src/lib/utils]:
    [Object.values(categories).reduce((acc, cat) => acc + cat.time, 0)]. *)
Definition getTotalTime (cats : list (string * CategoryData)) : number :=
  foldl (λ acc cat, number_add acc (time cat.2)) (Num 0) cats.

(** The names every object inherits from [Object.prototype]: reading
    [object[name]] for one of them gives the inherited member, which
    is truthy, when the object has no entry of its own under it. *)
Definition inherited (name : string) : bool :=
  existsb (String.eqb name)
    ["constructor"; "toString"; "toLocaleString"; "valueOf";
     "hasOwnProperty"; "isPrototypeOf"; "propertyIsEnumerable";
     "__proto__"; "__defineGetter__"; "__defineSetter__";
     "__lookupGetter__"; "__lookupSetter__"].
Arguments inherited : simpl never.

(** The three numbers [formatTime] prints:
    [Math.floor(seconds / 3600)], [Math.floor((seconds % 3600) / 60)]
    and [seconds % 60]; [%] takes the sign of the dividend. *)
Definition formatTime_parts (seconds : Z) : Z * Z * Z :=
  (seconds / 3600, Z.rem seconds 3600 / 60, Z.rem seconds 60)%Z.

(** [formatTime] of [client/src/lib/utils]: [`${h}h ${m}m ${s}s`]. *)
Definition formatTime (seconds : number) : string :=
  match seconds with
  | Num z =>
      let '(h, m, s) := formatTime_parts z in
      pretty h +:+ "h " +:+ pretty m +:+ "m " +:+ pretty s +:+ "s"
  | NaN => "NaNh NaNm NaNs"
  end.

(** The body of the loop of [getMostTimeSpentCategory]:
    [if (data.time > maxTime) { maxTime = data.time; maxCategory = name; }]. *)
Definition most_step (best : string * number) (entry : string * CategoryData)
    : string * number :=
  let '(maxCategory, maxTime) := best in
  let '(name, data) := entry in
  if number_gt (time data) maxTime then (name, time data) else (maxCategory, maxTime).

(** [getMostTimeSpentCategory] of [client/src/lib/utils]; [None] is
    [null]. *)
Definition getMostTimeSpentCategory (cats : list (string * CategoryData))
    : option (string * number) :=
  if bool_decide (length cats = 0) then None
  else Some (foldl most_step ("", Num 0) cats).

(** ** The persistence layer *)

Module Storage.

(** A JSON value, as [JSON.parse] returns it.  The fields of an object
    are in enumeration order and have distinct keys. *)
Inductive json :=
  | JNull
  | JBool (b : bool)
  | JNum (n : Z)
  | JStr (s : string)
  | JArr (items : list json)
  | JObj (fields : list (string * json)).

(** A string kept in [localStorage] or read from a file, represented by
    what [JSON.parse] makes of it: [Encoded v] is a text that parses to
    [v] (what [JSON.stringify v] writes), [Garbage s] is a text [s] that
    [JSON.parse] rejects; the empty string is [Garbage ""]. *)
Inductive text :=
  | Encoded (v : json)
  | Garbage (s : string).

Definition JSON_parse (t : text) : outcome json :=
  match t with
  | Encoded v => Ok v
  | Garbage _ => Throw SyntaxError
  end.

Definition JSON_stringify (v : json) : text := Encoded v.

(** Truthiness of what [localStorage.getItem] returns: [null] and the
    empty string are falsy. *)
Definition item_truthy (raw : option text) : bool :=
  match raw with
  | None => false
  | Some (Garbage s) => negb (bool_decide (s = ""))
  | Some (Encoded _) => true
  end.

(** Truthiness of a value that may be [undefined] ([None]). *)
Definition truthy (v : option json) : bool :=
  match v with
  | None => false
  | Some JNull => false
  | Some (JBool b) => b
  | Some (JNum n) => negb (bool_decide (n = 0%Z))
  | Some (JStr s) => negb (bool_decide (s = ""))
  | Some (JArr _) => true
  | Some (JObj _) => true
  end.

Fixpoint assoc (k : string) (fields : list (string * json)) : option json :=
  match fields with
  | [] => None
  | (k', v) :: rest => if String.eqb k' k then Some v else assoc k rest
  end.

(** Property read [v.k] for the keys the code reads ([date],
    [categories], [time], [version], [currentDay], [archiveData]): it
    throws on [null], and is [undefined] on anything that is not an
    object with that key. *)
Definition get (v : json) (k : string) : outcome (option json) :=
  match v with
  | JNull => Throw TypeError
  | JObj fields => Ok (assoc k fields)
  | _ => Ok None
  end.

Fixpoint chars (s : string) : list json :=
  match s with
  | EmptyString => []
  | String c rest => JStr (String c EmptyString) :: chars rest
  end.

(** [Object.values(v)]. *)
Definition Object_values (v : option json) : outcome (list json) :=
  match v with
  | None => Throw TypeError
  | Some JNull => Throw TypeError
  | Some (JObj fields) => Ok (fields.*2)
  | Some (JArr items) => Ok items
  | Some (JStr s) => Ok (chars s)
  | Some (JBool _) => Ok []
  | Some (JNum _) => Ok []
  end.

(** [v === s] for a string [s]. *)
Definition strict_eq (v : option json) (s : string) : bool :=
  match v with
  | Some (JStr s') => bool_decide (s' = s)
  | _ => false
  end.

Definition Array_isArray (v : option json) : bool :=
  match v with
  | Some (JArr _) => true
  | _ => false
  end.

Definition STORAGE_KEY : string := "goodWorksData".
Definition WEEKLY_KEY : string := "goodWorksWeekly".

(** The code runs against [localStorage] and may throw: a state and
    exception monad. *)
Definition M (A : Type) : Type :=
  gmap string text → outcome A * gmap string text.

Definition ret {A} (a : A) : M A := λ ls, (Ok a, ls).

Definition throw {A} (e : exn) : M A := λ ls, (Throw e, ls).

Definition lift {A} (o : outcome A) : M A := λ ls, (o, ls).

Definition bind {A B} (m : M A) (k : A → M B) : M B :=
  λ ls, match m ls with
        | (Ok a, ls') => k a ls'
        | (Throw e, ls') => (Throw e, ls')
        end.

(** [try { m } catch (e) { h }] *)
Definition try_catch {A} (m : M A) (h : M A) : M A :=
  λ ls, match m ls with
        | (Ok a, ls') => (Ok a, ls')
        | (Throw _, ls') => h ls'
        end.

#[global] Instance M_ret : MRet M := @ret.
#[global] Instance M_bind : MBind M := λ A B k m, bind m k.

Definition getItem (k : string) : M (option text) := λ ls, (Ok (ls !! k), ls).

Definition setItem (k : string) (t : text) : M unit :=
  λ ls, (Ok tt, <[k:=t]> ls).

Definition removeItem (k : string) : M unit := λ ls, (Ok tt, delete k ls).

Section WithCoercion.

(** [ToNumber] of ECMAScript on strings, arrays and objects, which the
    relational operators apply to a non-numeric operand. *)
Variable ToNumber : json → number.

(** The number a value compares as under [>]. *)
Definition to_number (v : option json) : number :=
  match v with
  | None => NaN
  | Some JNull => Num 0
  | Some (JBool b) => Num (if b then 1 else 0)
  | Some (JNum n) => Num n
  | Some w => ToNumber w
  end.

(** [Object.values(dayData.categories).some(cat => cat.time > 0)] on the
    values: stops at the first category with activity. *)
Fixpoint some_time (cats : list json) : outcome bool :=
  match cats with
  | [] => Ok false
  | cat :: rest =>
      match get cat "time" with
      | Throw e => Throw e
      | Ok t => if number_gt (to_number t) (Num 0) then Ok true
                else some_time rest
      end
  end.

Definition hasActivity (dayData : json) : outcome bool :=
  match get dayData "categories" with
  | Throw e => Throw e
  | Ok cs =>
      match Object_values cs with
      | Throw e => Throw e
      | Ok cats => some_time cats
      end
  end.

(** [weekly.push(dayData)]: only an array has [push]. *)
Definition push (weekly dayData : json) : outcome (list json) :=
  match weekly with
  | JArr items => Ok (items ++ [dayData])
  | _ => Throw TypeError
  end.

(** [if (weekly.length > 365) { weekly = weekly.slice(weekly.length - 365); }] *)
Definition keep_365 (weekly : list json) : list json :=
  if bool_decide (365 < length weekly)
  then drop (length weekly - 365) weekly
  else weekly.

(** [archiveDay] *)
Definition archiveDay (dayData : json) : M unit :=
  hasActivity ← lift (hasActivity dayData);
  (if hasActivity : bool then
     weeklyRaw ← getItem WEEKLY_KEY;
     weekly ← try_catch
       (if item_truthy weeklyRaw
        then lift (JSON_parse (default (Garbage "") weeklyRaw))
        else mret (JArr []))
       (mret (JArr []));
     weekly ← lift (push weekly dayData);
     let weekly := keep_365 weekly in
     setItem WEEKLY_KEY (JSON_stringify (JArr weekly))
   else mret tt);;
  removeItem STORAGE_KEY.

(** [loadTodayData]; [today] is [new Date().toDateString()]. *)
Definition loadTodayData (today : string) : M (option json) :=
  raw ← getItem STORAGE_KEY;
  if item_truthy raw then
    parsed ← lift (JSON_parse (default (Garbage "") raw));
    date ← lift (get parsed "date");
    if negb (strict_eq date today) then
      archiveDay parsed;;
      mret (Some (JObj []))
    else
      lift (get parsed "categories")
  else mret (Some (JObj [])).

(** [loadWeeklyData] *)
Definition loadWeeklyData : M json :=
  weeklyRaw ← getItem WEEKLY_KEY;
  if item_truthy weeklyRaw then
    try_catch
      (lift (JSON_parse (default (Garbage "") weeklyRaw)))
      (mret (JArr []))
  else mret (JArr []).

(** [saveData]; [today] is [new Date().toDateString()]. *)
Definition saveData (today : string) (categories : json) : M unit :=
  let dayData := JObj [("date", JStr today); ("categories", categories)] in
  setItem STORAGE_KEY (JSON_stringify dayData).

(** [clearAllData] *)
Definition clearAllData : M unit :=
  removeItem STORAGE_KEY;;
  removeItem WEEKLY_KEY.

(** [exportDataToJson]; [exportDate] is [new Date().toISOString()].
    Beside the boolean it returns, the function hands the browser a
    file to download: the second component is the content of that file
    ([dataStr]), if one was produced. *)
Definition exportDataToJson (exportDate : string) : M (bool * option text) :=
  try_catch
    (currentDay ← getItem STORAGE_KEY;
     archiveData ← getItem WEEKLY_KEY;
     currentDay ← (if item_truthy currentDay
                   then lift (JSON_parse (default (Garbage "") currentDay))
                   else mret JNull);
     archiveData ← (if item_truthy archiveData
                    then lift (JSON_parse (default (Garbage "") archiveData))
                    else mret (JArr []));
     let exportData :=
       JObj [("version", JNum 1);
             ("exportDate", JStr exportDate);
             ("currentDay", currentDay);
             ("archiveData", archiveData)] in
     let dataStr := JSON_stringify exportData in
     mret (true, Some dataStr))
    (mret (false, None)).

(** [typeof v === 'object'] *)
Definition typeof_object (v : json) : bool :=
  match v with
  | JNull | JArr _ | JObj _ => true
  | _ => false
  end.

(** [importDataFromJson] *)
Definition importDataFromJson (jsonData : text) : M bool :=
  try_catch
    (parsedData ← lift (JSON_parse jsonData);
     (if negb (truthy (Some parsedData)) || negb (typeof_object parsedData)
      then throw (Error "Invalid data format")
      else mret tt);;
     version ← lift (get parsedData "version");
     let version := if truthy version then version else Some (JNum 1) in
     (if number_gt (to_number version) (Num 1)
      then throw (Error "Unsupported data version")
      else mret tt);;
     currentDay ← lift (get parsedData "currentDay");
     (match currentDay with
      | Some v => if truthy currentDay
                  then setItem STORAGE_KEY (JSON_stringify v)
                  else mret tt
      | None => mret tt
      end);;
     archiveData ← lift (get parsedData "archiveData");
     (match archiveData with
      | Some v => if Array_isArray archiveData
                  then setItem WEEKLY_KEY (JSON_stringify v)
                  else mret tt
      | None => mret tt
      end);;
     mret true)
    (mret false).

End WithCoercion.

(** *** The persisted layout of well-typed data *)

(** What [JSON.stringify] writes for a number: [NaN] becomes [null]. *)
Definition number_json (n : number) : json :=
  match n with
  | Num z => JNum z
  | NaN => JNull
  end.

Definition CategoryData_json (c : CategoryData) : json :=
  JObj [("time", number_json (time c)); ("color", JStr (color c))].

Definition categories_json (cats : list (string * CategoryData)) : json :=
  JObj (prod_map id CategoryData_json <$> cats).

Definition DayData_json (d : DayData) : json :=
  JObj [("date", JStr (date d)); ("categories", categories_json (categories d))].

End Storage.

(** ** The session state machine *)

(** The hook of [useGoodWorks], run one call or one interval callback
    at a time.  What it does for display and for the device only (the
    background notification and its permission prompt, the hidden
    wake-lock marker element, the audio warm-up, [ringtoneUrl]) has no
    bearing on the tracked state and is left out.  A store is a map
    from names to entries; names that every JavaScript object inherits
    ([constructor], [toString], ...) are not told apart from other
    missing names. *)

Module Hook.

Local Open Scope Z_scope.

(** The function a running interval calls, with the variables it has
    captured.  [stopwatch name] is the arrow function [startCategory]
    hands to [window.setInterval]; [countdown] is the one of
    [startTimer], whose captured [elapsedIntervals] changes from call
    to call.  (The background notification the callbacks refresh is
    display only and is left out, with [lastNotificationUpdate].) *)
Inductive callback :=
  | stopwatch (name : string)
  | countdown (name ringtone : string) (startTime endTime elapsedIntervals : Z).

(** The hook's state, the browser's table of live intervals, and the
    completion signals sent so far. *)
Record state := mkState {
  categories : gmap string CategoryData;  (* useState: categories *)
  activeCategory : option string;         (* useState: activeCategory *)
  intervalRef : option nat;               (* intervalRef.current *)
  timerEndRef : option Z;                 (* timerEndRef.current *)
  intervals : gmap nat callback;          (* window: the live intervals *)
  nextHandle : nat;                       (* window: the next handle *)
  completions : list string;              (* sendNotification + playRingtone *)
}.

(** The state of a freshly mounted hook over the loaded categories.
    Interval handles are positive. *)
Definition init (cats : gmap string CategoryData) : state :=
  mkState cats None None None ∅ 1%nat [].

Definition setCategories (f : gmap string CategoryData → gmap string CategoryData)
    (s : state) : state :=
  mkState (f (categories s)) (activeCategory s) (intervalRef s) (timerEndRef s)
          (intervals s) (nextHandle s) (completions s).

Definition setActiveCategory (a : option string) (s : state) : state :=
  mkState (categories s) a (intervalRef s) (timerEndRef s)
          (intervals s) (nextHandle s) (completions s).

Definition set_intervalRef (r : option nat) (s : state) : state :=
  mkState (categories s) (activeCategory s) r (timerEndRef s)
          (intervals s) (nextHandle s) (completions s).

Definition set_timerEndRef (t : option Z) (s : state) : state :=
  mkState (categories s) (activeCategory s) (intervalRef s) t
          (intervals s) (nextHandle s) (completions s).

Definition set_intervals (f : gmap nat callback → gmap nat callback)
    (s : state) : state :=
  mkState (categories s) (activeCategory s) (intervalRef s) (timerEndRef s)
          (f (intervals s)) (nextHandle s) (completions s).

(** [window.setInterval(cb, _)]: registers [cb] under a fresh handle. *)
Definition setInterval (cb : callback) (s : state) : nat * state :=
  (nextHandle s,
   mkState (categories s) (activeCategory s) (intervalRef s) (timerEndRef s)
           (<[nextHandle s := cb]> (intervals s)) (S (nextHandle s))
           (completions s)).

(** [window.clearInterval(h)]; [clearInterval(null)] does nothing. *)
Definition clearInterval (h : option nat) (s : state) : state :=
  match h with
  | Some id => set_intervals (delete id) s
  | None => s
  end.

(** [sendNotification(`Timer Complete: ${name}`, ...)] followed by
    [playRingtone(name, ringtone)]: one completion signal. *)
Definition signal_completion (name : string) (s : state) : state :=
  mkState (categories s) (activeCategory s) (intervalRef s) (timerEndRef s)
          (intervals s) (nextHandle s) (completions s ++ [name]).

(** [stopActive] *)
Definition stopActive (s : state) : state :=
  let s :=
    match intervalRef s with
    | Some id =>
        if bool_decide (id ≠ 0%nat)          (* if (intervalRef.current) *)
        then set_intervalRef None (clearInterval (Some id) s)
        else s
    | None => s
    end in
  let s := setActiveCategory None s in
  set_timerEndRef None s.

(** [startCategory] *)
Definition startCategory (name : string) (s : state) : state :=
  let s := stopActive s in
  let s := setActiveCategory (Some name) s in
  let '(id, s) := setInterval (stopwatch name) s in
  set_intervalRef (Some id) s.

(** [startTimer]; [now] is the [Date.now()] it reads. *)
Definition startTimer (name : string) (seconds : Z) (ringtone : string)
    (now : Z) (s : state) : state :=
  let s := stopActive s in
  let s := setActiveCategory (Some name) s in
  let startTime := now in
  let endTime := startTime + seconds * 1000 in
  let s := set_timerEndRef (Some endTime) s in
  let '(id, s) := setInterval (countdown name ringtone startTime endTime 0) s in
  set_intervalRef (Some id) s.

(** [Math.ceil(x / 1000)] *)
Definition ceil_div1000 (x : Z) : Z := - ((- x) / 1000).

(** The callback of [startCategory]:
    [setCategories(prev => ({...prev, [name]: {...prev[name], time: prev[name].time + 1}}))].
    Reading [.time] of a missing entry throws. *)
Definition stopwatch_tick (name : string) (s : state) : outcome state :=
  match categories s !! name with
  | None => Throw TypeError
  | Some c =>
      let updatedTime := number_add (time c) (Num 1) in
      Ok (setCategories <[name := mkCategoryData updatedTime (color c)]> s)
  end.

(** The callback of [startTimer], registered under handle [id]; [now]
    is the [Date.now()] it reads. *)
Definition countdown_tick (id : nat) (name ringtone : string)
    (startTime endTime elapsedIntervals : Z) (now : Z) (s : state)
    : outcome state :=
  let totalElapsed := now - startTime in
  let remaining := Z.max 0 (ceil_div1000 (endTime - now)) in
  let expectedElapsed := totalElapsed / 1000 in
  let increment := expectedElapsed - elapsedIntervals in
  let credited :=
    if bool_decide (increment > 0) && bool_decide (remaining > 0) then
      match categories s !! name with
      | None => Throw TypeError
      | Some c =>
          let s := set_intervals
                     <[id := countdown name ringtone startTime endTime expectedElapsed]> s in
          Ok (setCategories
                <[name := mkCategoryData (number_add (time c) (Num increment)) (color c)]> s)
      end
    else Ok s in
  match credited with
  | Throw e => Throw e
  | Ok s =>
      if bool_decide (now >= endTime) then
        let s := clearInterval (intervalRef s) s in
        let s := set_intervalRef None s in
        let s := setActiveCategory None s in
        Ok (signal_completion name s)
      else Ok s
  end.

(** The browser runs the callback of interval [id], if it is live. *)
Definition fire (id : nat) (now : Z) (s : state) : outcome state :=
  match intervals s !! id with
  | None => Ok s
  | Some (stopwatch name) => stopwatch_tick name s
  | Some (countdown name ringtone startTime endTime elapsedIntervals) =>
      countdown_tick id name ringtone startTime endTime elapsedIntervals now s
  end.

(** The characters [String.prototype.trim] strips are the white space
    and the line terminators of ECMAScript: U+0009 to U+000D, U+0020,
    U+00A0, U+1680, U+2000 to U+200A, U+2028, U+2029, U+202F, U+205F,
    U+3000 and U+FEFF.  A name is the UTF-8 text of the JavaScript
    string, where these characters take one, two or three bytes. *)

(** U+0009 to U+000D and U+0020: one byte. *)
Definition white_space1 (c1 : Ascii.ascii) : bool :=
  let n1 := Ascii.nat_of_ascii c1 in
  bool_decide (n1 = 32%nat) || (bool_decide (9 ≤ n1)%nat && bool_decide (n1 ≤ 13)%nat).

(** U+00A0: the bytes C2 A0. *)
Definition white_space2 (c1 c2 : Ascii.ascii) : bool :=
  let n1 := Ascii.nat_of_ascii c1 in
  let n2 := Ascii.nat_of_ascii c2 in
  bool_decide (n1 = 194%nat) && bool_decide (n2 = 160%nat).

(** U+1680 (E1 9A 80), U+2000 to U+200A (E2 80 80 to E2 80 8A), U+2028,
    U+2029 and U+202F (E2 80 A8, A9 and AF), U+205F (E2 81 9F), U+3000
    (E3 80 80) and U+FEFF (EF BB BF). *)
Definition white_space3 (c1 c2 c3 : Ascii.ascii) : bool :=
  let n1 := Ascii.nat_of_ascii c1 in
  let n2 := Ascii.nat_of_ascii c2 in
  let n3 := Ascii.nat_of_ascii c3 in
  (bool_decide (n1 = 225%nat) && bool_decide (n2 = 154%nat) && bool_decide (n3 = 128%nat))
  || (bool_decide (n1 = 226%nat) && bool_decide (n2 = 128%nat)
      && ((bool_decide (128 ≤ n3)%nat && bool_decide (n3 ≤ 138)%nat)
          || bool_decide (n3 = 168%nat) || bool_decide (n3 = 169%nat)
          || bool_decide (n3 = 175%nat)))
  || (bool_decide (n1 = 226%nat) && bool_decide (n2 = 129%nat) && bool_decide (n3 = 159%nat))
  || (bool_decide (n1 = 227%nat) && bool_decide (n2 = 128%nat) && bool_decide (n3 = 128%nat))
  || (bool_decide (n1 = 239%nat) && bool_decide (n2 = 187%nat) && bool_decide (n3 = 191%nat)).

(** [!name.trim()]: nothing but characters that [trim] strips. *)
Fixpoint blank (name : string) : bool :=
  match name with
  | EmptyString => true
  | String c1 rest1 =>
      if white_space1 c1 then blank rest1
      else
        match rest1 with
        | EmptyString => false
        | String c2 rest2 =>
            if white_space2 c1 c2 then blank rest2
            else
              match rest2 with
              | EmptyString => false
              | String c3 rest3 => white_space3 c1 c2 c3 && blank rest3
              end
        end
  end.

(** [addCategory] *)
Definition addCategory (name color : string) (s : state) : bool * state :=
  if blank name then (false, s)
  else if bool_decide (is_Some (categories s !! name)) then (false, s)
  else (true, setCategories <[name := mkCategoryData (Num 0) color]> s).

(** [editCategory].  The entry built from a missing [oldName] is
    [{color: newColor}], with no [time]: reading it gives [undefined],
    which adds and compares as [NaN] does, and is kept as [NaN] here. *)
Definition editCategory (oldName newName newColor : string) (s : state)
    : bool * state :=
  if blank oldName || blank newName then (false, s)
  else if bool_decide (oldName ≠ newName)
          && bool_decide (is_Some (categories s !! newName)) then (false, s)
  else
    let categoryData :=
      match categories s !! oldName with
      | Some c => mkCategoryData (time c) newColor
      | None => mkCategoryData NaN newColor
      end in
    if bool_decide (oldName ≠ newName) then
      let s := setCategories (λ prev, <[newName := categoryData]> (delete oldName prev)) s in
      let s := if bool_decide (activeCategory s = Some oldName)
               then setActiveCategory (Some newName) s else s in
      (true, s)
    else
      (true, setCategories <[oldName := categoryData]> s).

(** [deleteCategory] *)
Definition deleteCategory (name : string) (s : state) : bool * state :=
  if blank name || negb (bool_decide (is_Some (categories s !! name)))
  then (false, s)
  else
    let s := if bool_decide (activeCategory s = Some name)
             then stopActive s else s in
    (true, setCategories (delete name) s).

(** What happens to the hook: a call of one of its functions, or the
    browser running an interval callback. *)
Inductive event :=
  | StartCategory (name : string)
  | StartTimer (name : string) (seconds : Z) (ringtone : string)
  | StopActive
  | AddCategory (name color : string)
  | EditCategory (oldName newName newColor : string)
  | DeleteCategory (name : string)
  | Fire (id : nat).

(** One event at wall-clock time [now] (milliseconds). *)
Definition step (now : Z) (e : event) (s : state) : outcome state :=
  match e with
  | StartCategory name => Ok (startCategory name s)
  | StartTimer name seconds ringtone => Ok (startTimer name seconds ringtone now s)
  | StopActive => Ok (stopActive s)
  | AddCategory name color => Ok (addCategory name color s).2
  | EditCategory oldName newName newColor =>
      Ok (editCategory oldName newName newColor s).2
  | DeleteCategory name => Ok (deleteCategory name s).2
  | Fire id => fire id now s
  end.

(** A timed sequence of events; an exception ends the run. *)
Fixpoint run (es : list (Z * event)) (s : state) : outcome state :=
  match es with
  | [] => Ok s
  | (now, e) :: rest =>
      match step now e s with
      | Ok s' => run rest s'
      | Throw e => Throw e
      end
  end.

(** The three session calls. *)
Inductive session_call :=
  | CallStartCategory (name : string)
  | CallStartTimer (name : string) (seconds : Z) (ringtone : string)
  | CallStopActive.

Definition call_event (c : session_call) : event :=
  match c with
  | CallStartCategory name => StartCategory name
  | CallStartTimer name seconds ringtone => StartTimer name seconds ringtone
  | CallStopActive => StopActive
  end.

(** The time recorded for [name], if it has an entry. *)
Definition time_of (name : string) (s : state) : option number :=
  time <$> categories s !! name.

End Hook.

(** ** The totals of the summary charts *)

(** The accumulation of [processMonthlyChartData] in the [TimeSummary]
    component, which the weekly and monthly breakdowns repeat.  The
    object [combinedCategories] is the list of its own entries in the
    order they were added. *)

Module Summary.

(** One step of the accumulation,
    [if (!combinedCategories[category]) {
       combinedCategories[category] = { time: 0, color: data.color };
     }
     combinedCategories[category].time += data.time;].
    Under an [inherited] name with no entry of its own the test finds
    the inherited member and the sum is written to that member: the
    entries stay as they are. *)
Fixpoint credit (category : string) (data : CategoryData)
    (combinedCategories : list (string * CategoryData))
    : list (string * CategoryData) :=
  match combinedCategories with
  | [] =>
      if inherited category then []
      else [(category, mkCategoryData (number_add (Num 0) (time data)) (color data))]
  | (k, c) :: rest =>
      if String.eqb k category
      then (k, mkCategoryData (number_add (time c) (time data)) (color c)) :: rest
      else (k, c) :: credit category data rest
  end.

(** [weeklyData.forEach(day =>
       Object.entries(day.categories).forEach(([category, data]) => ...))]
    from an empty [combinedCategories]. *)
Definition combinedCategories (days : list DayData) : list (string * CategoryData) :=
  foldl (λ combined day,
           foldl (λ combined entry, credit entry.1 entry.2 combined)
                 combined (categories day))
        [] days.

End Summary.

(** ** The colors of the picker *)

(** The conversions of the [ColorPicker] component between a color's
    text, [#rrggbb], and its three channels. *)

Module Color.

Local Open Scope Z_scope.

(** [interface RGB { r: number; g: number; b: number }], over integer
    channels. *)
Record RGB := mkRGB { r : Z; g : Z; b : Z }.

(** [ToInt32]: the 32-bit signed integer the bit operators work on. *)
Definition int32 (z : Z) : Z := (z + 2 ^ 31) mod 2 ^ 32 - 2 ^ 31.

(** [a << n] for a shift count [0 ≤ n < 32]. *)
Definition shl (a n : Z) : Z := int32 (int32 a * 2 ^ n).

(** [a | b] *)
Definition bor (a b : Z) : Z := Z.lor (int32 a) (int32 b).

Definition hex_digit (d : Z) : Ascii.ascii :=
  match d with
  | 0 => "0" | 1 => "1" | 2 => "2" | 3 => "3" | 4 => "4" | 5 => "5"
  | 6 => "6" | 7 => "7" | 8 => "8" | 9 => "9" | 10 => "a" | 11 => "b"
  | 12 => "c" | 13 => "d" | 14 => "e" | _ => "f"
  end%char.

(** The hexadecimal digits of [n > 0], at most [digits] of them, in
    front of [acc]. *)
Fixpoint to_hex (digits : nat) (n : Z) (acc : string) : string :=
  match digits with
  | O => acc
  | S digits =>
      if bool_decide (n = 0) then acc
      else to_hex digits (n / 16) (String (hex_digit (n mod 16)) acc)
  end.

(** [n.toString(16)] for a 32-bit integer [n], which has at most eight
    hexadecimal digits. *)
Definition toString16 (n : Z) : string :=
  if bool_decide (n = 0) then "0"
  else if bool_decide (n < 0) then String "-" (to_hex 8 (- n) "")
  else to_hex 8 n "".

(** [s.slice(1)] *)
Definition slice1 (s : string) : string :=
  match s with
  | EmptyString => EmptyString
  | String _ rest => rest
  end.

(** [rgbToHex]:
    ["#" + ((1 << 24) | (r << 16) | (g << 8) | b).toString(16).slice(1)]. *)
Definition rgbToHex (r g b : Z) : string :=
  String "#" (slice1 (toString16
    (bor (bor (bor (shl 1 24) (shl r 16)) (shl g 8)) b))).

(** The value of a character of the class [[a-f\d]] under the [i]
    flag. *)
Definition from_hex (c : Ascii.ascii) : option Z :=
  let n := Z.of_nat (Ascii.nat_of_ascii c) in
  if bool_decide (48 ≤ n ≤ 57) then Some (n - 48)
  else if bool_decide (97 ≤ n ≤ 102) then Some (n - 87)
  else if bool_decide (65 ≤ n ≤ 70) then Some (n - 55)
  else None.

(** [parseInt(xy, 16)] of a two-character group of the match. *)
Definition parse_pair (x y : Ascii.ascii) : option Z :=
  match from_hex x, from_hex y with
  | Some h, Some l => Some (16 * h + l)
  | _, _ => None
  end.

(** [hexToRgb]: [/^#?([a-f\d]{2})([a-f\d]{2})([a-f\d]{2})$/i] either
    matches the whole text, with or without the leading [#], or the
    result is black. *)
Definition hexToRgb (hex : string) : RGB :=
  let digits :=
    match hex with
    | String "#"%char rest => rest
    | _ => hex
    end in
  match digits with
  | String r1 (String r0 (String g1 (String g0 (String b1 (String b0 EmptyString))))) =>
      match parse_pair r1 r0, parse_pair g1 g0, parse_pair b1 b0 with
      | Some r, Some g, Some b => mkRGB r g b
      | _, _, _ => mkRGB 0 0 0
      end
  | _ => mkRGB 0 0 0
  end.

End Color.

(** ** Vocabulary of the properties *)

(** A category with recorded activity: its time is a number above zero. *)
Definition active (c : CategoryData) : Prop :=
  ∃ z, time c = Num z ∧ (0 < z)%Z.

(** Some category of the day has recorded activity. *)
Definition has_activity (d : DayData) : Prop :=
  ∃ name c, (name, c) ∈ categories d ∧ active c.

(** Every recorded time of the day is a non-negative number. *)
Definition nonneg_times (d : DayData) : Prop :=
  ∀ name c, (name, c) ∈ categories d → ∃ z, time c = Num z ∧ (0 ≤ z)%Z.

(** The category an interval callback adds time to. *)
Definition target (cb : Hook.callback) : string :=
  match cb with
  | Hook.stopwatch name => name
  | Hook.countdown name _ _ _ _ => name
  end.

(** The live intervals are at most the one [intervalRef] holds, and
    handles are positive. *)
Definition single_interval (s : Hook.state) : Prop :=
  (∀ id cb, Hook.intervals s !! id = Some cb →
     Hook.intervalRef s = Some id ∧ id < Hook.nextHandle s) ∧
  Hook.intervalRef s ≠ Some 0 ∧
  Hook.nextHandle s ≠ 0.

(** The live interval, if any, adds to the active category. *)
Definition targets_active (s : Hook.state) : Prop :=
  ∀ id cb, Hook.intervals s !! id = Some cb → Hook.activeCategory s = Some (target cb).

(** The stores of the examples. *)
Definition reading : gmap string CategoryData :=
  {["Reading" := mkCategoryData (Num 0) "#4C8BF5"]}.

Definition work : gmap string CategoryData :=
  {["Work" := mkCategoryData (Num 0) "#9C27B0"]}.

(** A day record left in storage by the day before, and the file an
    export of that storage writes. *)
Definition yesterday : DayData :=
  mkDayData "Sun Nov 01 2026" [("Reading", mkCategoryData (Num 1500) "#4C8BF5")].

Definition persisted : gmap string Storage.text :=
  {[Storage.STORAGE_KEY := Storage.Encoded (Storage.DayData_json yesterday)]}.

Definition snapshot : Storage.text :=
  Storage.Encoded
    (Storage.JObj [("version", Storage.JNum 1);
                   ("exportDate", Storage.JStr "2026-11-02T09:00:00.000Z");
                   ("currentDay", Storage.DayData_json yesterday);
                   ("archiveData", Storage.JArr [])]).

(** [n] callbacks of interval [id], one every [period] milliseconds. *)
Definition every (period : Z) (id : nat) (n : nat) : list (Z * Hook.event) :=
  (λ k : nat, (period * Z.of_nat (S k), Hook.Fire id)%Z) <$> seq 0 n.



(** A stored text that is not empty and that [JSON.parse] rejects. *)
Definition corrupt (raw : option Storage.text) : Prop :=
  ∃ s, raw = Some (Storage.Garbage s) ∧ s ≠ "".

(** The callbacks of interval [id] at the given times. *)
Definition fires (id : nat) (ticks : list Z) : list (Z * Hook.event) :=
  (λ t, (t, Hook.Fire id)) <$> ticks.

(** Every recorded time of the store is a non-negative number. *)
Definition valid_times (m : gmap string CategoryData) : Prop :=
  ∀ k c, m !! k = Some c → ∃ z, time c = Num z ∧ (0 ≤ z)%Z.

(** No name of the store is blank. *)
Definition no_blank_names (m : gmap string CategoryData) : Prop :=
  ∀ k c, m !! k = Some c → Hook.blank k = false.

(** The names an event looks up in the store. *)
Definition names_of (e : Hook.event) (s : Hook.state) : list string :=
  match e with
  | Hook.StartCategory _ | Hook.StartTimer _ _ _ | Hook.StopActive => []
  | Hook.AddCategory name _ => [name]
  | Hook.EditCategory oldName newName _ => [oldName; newName]
  | Hook.DeleteCategory name => [name]
  | Hook.Fire id =>
      match Hook.intervals s !! id with
      | Some cb => [target cb]
      | None => []
      end
  end.

(** None of the names is [inherited]. *)
Definition plain (names : list string) : Prop :=
  Forall (λ name, inherited name = false) names.

(** The entry an object holds under a key. *)
Fixpoint entry_of (k : string) (object : list (string * CategoryData))
    : option CategoryData :=
  match object with
  | [] => None
  | (k', c) :: rest => if String.eqb k' k then Some c else entry_of k rest
  end.

(** What the days record for a category, day after day. *)
Definition entries_for (k : string) (days : list DayData) : list CategoryData :=
  snd <$> filter (λ e, e.1 = k) (days ≫= categories).

(** [a + b + ...] from 0. *)
Definition number_sum (l : list number) : number := foldl number_add (Num 0) l.

(** More examples: a day without activity, the storage after the
    rollover of [yesterday], and the hook with a stopwatch running on
    "Reading". *)
Definition idle_day : DayData :=
  mkDayData "Sat Oct 31 2026" [("Reading", mkCategoryData (Num 0) "#4C8BF5")].

Definition rolled_over : gmap string Storage.text :=
  {[Storage.WEEKLY_KEY := Storage.Encoded (Storage.JArr [Storage.DayData_json yesterday])]}.

Definition reading_running : Hook.state :=
  Hook.startCategory "Reading" (Hook.init reading).

(** The text with the given bytes. *)
Definition utf8 (bytes : list nat) : string :=
  foldr (λ n rest, String (Ascii.ascii_of_nat n) rest) "" bytes.

(** Each character that [String.prototype.trim] strips, in the order of
    the code points. *)
Definition white_space : list string :=
  utf8 <$> [[9]; [10]; [11]; [12]; [13]; [32]; [194; 160]; [225; 154; 128];
            [226; 128; 128]; [226; 128; 129]; [226; 128; 130]; [226; 128; 131];
            [226; 128; 132]; [226; 128; 133]; [226; 128; 134]; [226; 128; 135];
            [226; 128; 136]; [226; 128; 137]; [226; 128; 138]; [226; 128; 168];
            [226; 128; 169]; [226; 128; 175]; [226; 129; 159]; [227; 128; 128];
            [239; 187; 191]].

(** A snapshot whose archive holds 366 days, with a current day
    without activity. *)
Definition oversized_log : list Storage.json :=
  replicate 366 (Storage.DayData_json yesterday).

Definition oversized_snapshot : Storage.text :=
  Storage.Encoded
    (Storage.JObj [("version", Storage.JNum 1);
                   ("exportDate", Storage.JStr "2026-11-02T09:00:00.000Z");
                   ("currentDay", Storage.DayData_json idle_day);
                   ("archiveData", Storage.JArr oversized_log)]).




(** ** Properties of the persistence layer *)

Module StorageFacts.
Import Storage.

(** Unfolds the monad down to matches on the storage. *)
Ltac unfold_M :=
  unfold mbind, M_bind, bind, mret, M_ret, ret, lift, throw, try_catch,
    getItem, setItem, removeItem.

Section Properties.

Variable ToNumber : json → number.

Lemma number_gt_0_active c : number_gt (time c) (Num 0) = true ↔ active c.
Proof.
  unfold active. destruct (time c) as [z|]; cbn.
  - rewrite bool_decide_eq_true. split.
    + intros ?. exists z. split; [done|lia].
    + intros (z' & [= <-] & ?). lia.
  - split; [done|]. by intros (? & ? & ?).
Qed.

Lemma existsb_has_activity d :
  existsb (λ kc, number_gt (time kc.2) (Num 0)) (categories d) = true
  ↔ has_activity d.
Proof.
  rewrite existsb_exists. unfold has_activity. split.
  - intros ([k c] & Hin & Hgt). exists k, c.
    split; [by apply list_elem_of_In|by apply number_gt_0_active].
  - intros (k & c & Hin & Hact). exists (k, c).
    split; [by apply list_elem_of_In|by apply number_gt_0_active].
Qed.

Lemma some_time_typed (cats : list (string * CategoryData)) :
  some_time ToNumber ((prod_map id CategoryData_json <$> cats).*2)
  = Ok (existsb (λ kc, number_gt (time kc.2) (Num 0)) cats).
Proof.
  induction cats as [|[k c] cats IH]; [reflexivity|].
  cbn. rewrite IH. destruct c as [[z|] col]; cbn; [|reflexivity].
  by destruct (bool_decide (z > 0)%Z).
Qed.

Lemma hasActivity_typed d :
  hasActivity ToNumber (DayData_json d)
  = Ok (existsb (λ kc, number_gt (time kc.2) (Num 0)) (categories d)).
Proof. unfold hasActivity. cbn. apply some_time_typed. Qed.

(** What [loadWeeklyData] reads, as a function of the stored text. *)
Lemma loadWeeklyData_eval ls :
  loadWeeklyData ls =
  (Ok match ls !! WEEKLY_KEY with
      | Some (Encoded v) => v
      | _ => JArr []
      end, ls).
Proof.
  unfold loadWeeklyData. unfold_M.
  destruct (ls !! WEEKLY_KEY) as [[v|s]|]; cbn; try reflexivity.
  by destruct (bool_decide (s = "")).
Qed.

Lemma archiveDay_idle day ls :
  hasActivity ToNumber day = Ok false →
  archiveDay ToNumber day ls = (Ok (), delete STORAGE_KEY ls).
Proof.
  intros H. unfold archiveDay. unfold_M. by rewrite H.
Qed.

Lemma archiveDay_active day ls log :
  hasActivity ToNumber day = Ok true →
  loadWeeklyData ls = (Ok (JArr log), ls) →
  archiveDay ToNumber day ls =
  (Ok (), delete STORAGE_KEY
            (<[WEEKLY_KEY := Encoded (JArr (keep_365 (log ++ [day])))]> ls)).
Proof.
  intros H Hlog. rewrite loadWeeklyData_eval in Hlog.
  unfold archiveDay. unfold_M. rewrite H. unfold push.
  destruct (ls !! WEEKLY_KEY) as [[v|s]|]; cbn.
  - injection Hlog as ->. reflexivity.
  - injection Hlog as <-. by destruct (bool_decide (s = "")).
  - injection Hlog as <-. reflexivity.
Qed.



Lemma keep_365_app_last l x : last (keep_365 (l ++ [x])) = Some x.
Proof.
  unfold keep_365. case_bool_decide; [|apply last_snoc].
  rewrite drop_app_le; [apply last_snoc|].
  rewrite length_app. cbn. lia.
Qed.



Lemma foldl_total_NaN (cats : list (string * CategoryData)) :
  foldl (λ acc cat, number_add acc (time cat.2)) NaN cats = NaN.
Proof. induction cats as [|kc cats IH]; [done|]. exact IH. Qed.

Lemma total_above_has_activity (cats : list (string * CategoryData)) a t :
  foldl (λ acc cat, number_add acc (time cat.2)) (Num a) cats = Num t →
  (a < t)%Z →
  ∃ name c, (name, c) ∈ cats ∧ active c.
Proof.
  revert a. induction cats as [|[k c] cats IH]; intros a Hsum Hlt.
  - cbn in Hsum. injection Hsum as ->. lia.
  - cbn in Hsum. destruct (time c) as [z|] eqn:Ez; cbn in Hsum.
    + destruct (decide (0 < z)%Z) as [Hz|Hz].
      * exists k, c. split; [left|by exists z].
      * destruct (IH _ Hsum) as (k' & c' & Hin & Hact); [lia|].
        exists k', c'. split; [by right|done].
    + by rewrite foldl_total_NaN in Hsum.
Qed.

Lemma total_same_no_activity (cats : list (string * CategoryData)) a t :
  (∀ name c, (name, c) ∈ cats → ∃ z, time c = Num z ∧ (0 ≤ z)%Z) →
  foldl (λ acc cat, number_add acc (time cat.2)) (Num a) cats = Num t →
  (a ≤ t)%Z ∧ (t = a → ∀ name c, (name, c) ∈ cats → ¬ active c).
Proof.
  revert a. induction cats as [|[k c] cats IH]; intros a Hnn Hsum.
  - cbn in Hsum. injection Hsum as ->. split; [lia|].
    intros _ ?? Hin. by apply elem_of_nil in Hin.
  - cbn in Hsum.
    destruct (Hnn k c) as (z & Ez & Hz); [left|].
    rewrite Ez in Hsum. cbn in Hsum.
    destruct (IH (a + z)%Z) as [Hle Hnone]; [|done|].
    { intros k0 c0 Hin. apply (Hnn k0 c0). by right. }
    split; [lia|]. intros -> name c' Hin (z' & Ez' & Hz').
    apply elem_of_cons in Hin as [[= -> ->]|Hin].
    + rewrite Ez in Ez'. injection Ez' as <-. lia.
    + apply (Hnone ltac:(lia) name c' Hin). by exists z'.
Qed.

Lemma total_positive_has_activity d t :
  getTotalTime (categories d) = Num t → (0 < t)%Z → has_activity d.
Proof. apply total_above_has_activity. Qed.

Lemma total_zero_no_activity d :
  nonneg_times d → getTotalTime (categories d) = Num 0 → ¬ has_activity d.
Proof.
  intros Hnn Hsum (name & c & Hin & Hact).
  destruct (total_same_no_activity _ _ _ Hnn Hsum) as [_ Hnone].
  by apply (Hnone eq_refl name c).
Qed.

Lemma hasActivity_true d :
  has_activity d → hasActivity ToNumber (DayData_json d) = Ok true.
Proof. intros H. rewrite hasActivity_typed. f_equal. by apply existsb_has_activity. Qed.

Lemma hasActivity_false d :
  ¬ has_activity d → hasActivity ToNumber (DayData_json d) = Ok false.
Proof.
  intros H. rewrite hasActivity_typed. f_equal.
  apply not_true_is_false. by rewrite existsb_has_activity.
Qed.

Lemma has_activity_dec d : has_activity d ∨ ¬ has_activity d.
Proof.
  rewrite <-existsb_has_activity.
  destruct (existsb _ _); [by left|by right].
Qed.

Lemma loadTodayData_rollover today d ls :
  ls !! STORAGE_KEY = Some (Encoded (DayData_json d)) →
  date d ≠ today →
  loadTodayData ToNumber today ls =
  match archiveDay ToNumber (DayData_json d) ls with
  | (Ok _, ls') => (Ok (Some (JObj [])), ls')
  | (Throw e, ls') => (Throw e, ls')
  end.
Proof.
  intros Hraw Hdate.
  unfold loadTodayData. unfold_M. rewrite Hraw. cbn.
  rewrite bool_decide_eq_false_2 by done. cbn.
  by destruct (archiveDay _ _ _) as [[[]|e] ls'].
Qed.

(** C4. Archiving a day appends it to the historical log exactly when
    one of its categories has a time above zero, and removes the
    current-day record in both cases.  Hence loading a record of
    another day returns an empty category map with the current-day
    record cleared; when the total time is above zero the day is the
    last entry of the log, and when it is zero (times being
    non-negative) the stored log is untouched. *)
Theorem archive_iff_activity (today : string) (d : DayData)
    (log : list json) (ls : gmap string text) :
  loadWeeklyData ls = (Ok (JArr log), ls) →
  ∃ ls',
    archiveDay ToNumber (DayData_json d) ls = (Ok (), ls') ∧
    ls' !! STORAGE_KEY = None ∧
    (has_activity d →
       loadWeeklyData ls' = (Ok (JArr (keep_365 (log ++ [DayData_json d]))), ls')) ∧
    (¬ has_activity d → ls' !! WEEKLY_KEY = ls !! WEEKLY_KEY) ∧
    (ls !! STORAGE_KEY = Some (Encoded (DayData_json d)) →
     date d ≠ today →
       loadTodayData ToNumber today ls = (Ok (Some (JObj [])), ls') ∧
       (∀ t, getTotalTime (categories d) = Num t → (0 < t)%Z →
          ∃ log', loadWeeklyData ls' = (Ok (JArr log'), ls') ∧
                  last log' = Some (DayData_json d)) ∧
       (nonneg_times d → getTotalTime (categories d) = Num 0 →
          ls' !! WEEKLY_KEY = ls !! WEEKLY_KEY)).
Proof.
  intros Hlog.
  destruct (has_activity_dec d) as [Hact|Hidle].
  - pose proof (archiveDay_active _ ls log (hasActivity_true d Hact) Hlog) as Harch.
    eexists. split; [exact Harch|].
    assert (loadWeeklyData
              (delete STORAGE_KEY
                 (<[WEEKLY_KEY:=Encoded (JArr (keep_365 (log ++ [DayData_json d])))]> ls))
            = (Ok (JArr (keep_365 (log ++ [DayData_json d]))),
               delete STORAGE_KEY
                 (<[WEEKLY_KEY:=Encoded (JArr (keep_365 (log ++ [DayData_json d])))]> ls)))
      as Hread.
    { rewrite loadWeeklyData_eval.
      rewrite lookup_delete_ne by done. by rewrite lookup_insert_eq. }
    split; [apply lookup_delete_eq|].
    split; [done|]. split; [done|].
    intros Hraw Hdate.
    split; [by rewrite (loadTodayData_rollover _ _ _ Hraw Hdate), Harch|].
    split.
    + intros t _ _. eexists. split; [exact Hread|apply keep_365_app_last].
    + intros Hnn Hzero. by destruct (total_zero_no_activity d Hnn Hzero).
  - pose proof (archiveDay_idle _ ls (hasActivity_false d Hidle)) as Harch.
    eexists. split; [exact Harch|].
    split; [apply lookup_delete_eq|].
    split; [done|].
    split; [intros _; by rewrite lookup_delete_ne|].
    intros Hraw Hdate.
    split; [by rewrite (loadTodayData_rollover _ _ _ Hraw Hdate), Harch|].
    split.
    + intros t Ht Hpos. destruct Hidle. by eapply total_positive_has_activity.
    + intros _ _. by rewrite lookup_delete_ne.
Qed.



Lemma loadTodayData_corrupt today s ls :
  s ≠ "" →
  ls !! STORAGE_KEY = Some (Garbage s) →
  loadTodayData ToNumber today ls = (Throw SyntaxError, ls).
Proof.
  intros Hs Hraw.
  unfold loadTodayData. unfold_M. rewrite Hraw. cbn.
  by rewrite bool_decide_eq_false_2.
Qed.

(** C6. [loadWeeklyData] never throws: whatever text is stored,
    unparsable text included, it returns a value and leaves the storage
    as it was.  [loadTodayData] has no such guard: on the unparsable
    current-day text [{oops] the [SyntaxError] of [JSON.parse] leaves
    the function. *)
Theorem loadTodayData_propagates_parse_error (today : string) :
  (∀ ls, ∃ v, loadWeeklyData ls = (Ok v, ls)) ∧
  loadWeeklyData {[WEEKLY_KEY := Garbage "{oops"]}
    = (Ok (JArr []), {[WEEKLY_KEY := Garbage "{oops"]}) ∧
  loadTodayData ToNumber today {[STORAGE_KEY := Garbage "{oops"]}
    = (Throw SyntaxError, {[STORAGE_KEY := Garbage "{oops"]}).
Proof.
  split; [|split].
  - intros ls. rewrite loadWeeklyData_eval. eauto.
  - reflexivity.
  - by apply loadTodayData_corrupt with (s := "{oops").
Qed.

(** What a successful export writes to the file. *)
Lemma exportDataToJson_eval exportDate ls file ls1 :
  exportDataToJson exportDate ls = (Ok (true, Some file), ls1) →
  ls1 = ls ∧
  ∃ currentDay archiveData,
    file = Encoded (JObj [("version", JNum 1); ("exportDate", JStr exportDate);
                          ("currentDay", currentDay); ("archiveData", archiveData)]) ∧
    (if item_truthy (ls !! STORAGE_KEY)
     then ls !! STORAGE_KEY = Some (Encoded currentDay)
     else currentDay = JNull) ∧
    (if item_truthy (ls !! WEEKLY_KEY)
     then ls !! WEEKLY_KEY = Some (Encoded archiveData)
     else archiveData = JArr []).
Proof.
  unfold exportDataToJson. unfold_M.
  destruct (ls !! STORAGE_KEY) as [[c|s]|]; cbn;
    try destruct (bool_decide (s = "")); cbn;
    destruct (ls !! WEEKLY_KEY) as [[a|s']|]; cbn;
    try destruct (bool_decide (s' = "")); cbn;
    intros [= <- <-]; (split; [done|]); eauto 10.
Qed.

(** What importing an object or array does, once the version is accepted. *)
Lemma importDataFromJson_eval parsedData ls :
  typeof_object parsedData = true →
  parsedData ≠ JNull →
  (∀ version, get parsedData "version" = Ok version →
     number_gt (to_number ToNumber (if truthy version then version else Some (JNum 1)))
               (Num 1) = false) →
  ∃ currentDay archiveData,
    get parsedData "currentDay" = Ok currentDay ∧
    get parsedData "archiveData" = Ok archiveData ∧
    importDataFromJson ToNumber (Encoded parsedData) ls =
    (Ok true,
     let ls := match currentDay with
               | Some v => if truthy currentDay then <[STORAGE_KEY := Encoded v]> ls else ls
               | None => ls
               end in
     match archiveData with
     | Some (JArr items) => <[WEEKLY_KEY := Encoded (JArr items)]> ls
     | _ => ls
     end).
Proof.
  intros Hobj Hnull Hver.
  assert (∃ fields, ∀ k, get parsedData k = Ok (assoc k fields)) as [fields Hget].
  { destruct parsedData; try done; [by exists []|by eexists]. }
  exists (assoc "currentDay" fields), (assoc "archiveData" fields).
  split; [done|]. split; [done|].
  specialize (Hver _ (Hget "version")).
  unfold importDataFromJson. unfold_M. unfold JSON_parse.
  replace (truthy (Some parsedData)) with true by (by destruct parsedData).
  rewrite Hobj, !Hget, Hver.
  unfold JSON_stringify, negb, orb.
  destruct (assoc "currentDay" fields) as [c|].
  - destruct (truthy (Some c));
      by destruct (assoc "archiveData" fields) as [[]|].
  - by destruct (assoc "archiveData" fields) as [[]|].
Qed.

(** C5. The cap of 365 entries holds of what an archiving leaves, not
    of the log.  [importDataFromJson] stores the archive of a snapshot
    as it is: after the import of a snapshot with 366 days the log
    holds 366 entries, and the rollover of the imported day, which has
    no activity, leaves all 366 in place. *)
Theorem import_exceeds_365 :
  ∃ ls1 ls2,
    importDataFromJson ToNumber oversized_snapshot ∅ = (Ok true, ls1) ∧
    loadWeeklyData ls1 = (Ok (JArr oversized_log), ls1) ∧
    length oversized_log = 366 ∧
    loadTodayData ToNumber "Mon Nov 02 2026" ls1 = (Ok (Some (JObj [])), ls2) ∧
    loadWeeklyData ls2 = (Ok (JArr oversized_log), ls2).
Proof.
  exists (<[WEEKLY_KEY := Encoded (JArr oversized_log)]>
            (<[STORAGE_KEY := Encoded (DayData_json idle_day)]> ∅)),
         (delete STORAGE_KEY
            (<[WEEKLY_KEY := Encoded (JArr oversized_log)]>
               (<[STORAGE_KEY := Encoded (DayData_json idle_day)]> ∅))).
  split; [reflexivity|].
  split; [by rewrite loadWeeklyData_eval, lookup_insert_eq|].
  split; [reflexivity|].
  split.
  - rewrite (loadTodayData_rollover _ idle_day).
    + by rewrite archiveDay_idle by (by rewrite hasActivity_typed).
    + rewrite lookup_insert_ne by done. apply lookup_insert_eq.
    + discriminate.
  - rewrite loadWeeklyData_eval, lookup_delete_ne by done.
    by rewrite lookup_insert_eq.
Qed.

(** C10. A snapshot that is a JSON object whose version is absent or at
    most 1 is imported with success, even when it has no current-day
    value and no archive array; in that case the storage is left
    exactly as it was. *)
Theorem import_without_data_succeeds (fields : list (string * json))
    (ls : gmap string text) :
  (assoc "version" fields = None ∨
   ∃ n, assoc "version" fields = Some (JNum n) ∧ (n ≤ 1)%Z) →
  ∃ ls',
    importDataFromJson ToNumber (Encoded (JObj fields)) ls = (Ok true, ls') ∧
    (truthy (assoc "currentDay" fields) = false →
     Array_isArray (assoc "archiveData" fields) = false →
     ls' = ls).
Proof.
  intros Hver.
  destruct (importDataFromJson_eval (JObj fields) ls) as (c & a & Hc & Ha & Himp);
    [done|done| |].
  { intros version [= <-].
    destruct Hver as [->|(n & -> & Hn)]; cbn.
    - by apply bool_decide_eq_false_2.
    - destruct (bool_decide (n = 0%Z)); cbn; apply bool_decide_eq_false_2; lia. }
  cbn in Hc, Ha. injection Hc as <-. injection Ha as <-.
  eexists. split; [exact Himp|].
  intros Hcur Harr. cbn. rewrite Hcur.
  destruct (assoc "currentDay" fields);
    by destruct (assoc "archiveData" fields) as [[]|].
Qed.


(** Importing the file of a successful export into any storage. *)
Lemma import_of_export exportDate ls file ls1 other :
  exportDataToJson exportDate ls = (Ok (true, Some file), ls1) →
  ∃ currentDay archiveData,
    (if item_truthy (ls !! STORAGE_KEY)
     then ls !! STORAGE_KEY = Some (Encoded currentDay)
     else currentDay = JNull) ∧
    (if item_truthy (ls !! WEEKLY_KEY)
     then ls !! WEEKLY_KEY = Some (Encoded archiveData)
     else archiveData = JArr []) ∧
    importDataFromJson ToNumber file other =
    (Ok true,
     let other := if truthy (Some currentDay)
                  then <[STORAGE_KEY := Encoded currentDay]> other else other in
     match archiveData with
     | JArr items => <[WEEKLY_KEY := Encoded (JArr items)]> other
     | _ => other
     end).
Proof.
  intros Hexp.
  apply exportDataToJson_eval in Hexp as (_ & cur & arch & -> & Hcur & Harch).
  exists cur, arch. split; [done|]. split; [done|].
  edestruct importDataFromJson_eval as (c & a & Hc & Ha & ->); [done|done| |].
  { intros version [= <-]. reflexivity. }
  cbn in Hc, Ha. injection Hc as <-. injection Ha as <-. reflexivity.
Qed.

(** C9. Importing the file that export has just produced leaves the
    current-day record and the historical log as they were at export
    time.  Imported into any other storage, the file restores the
    exported log whenever that log reads as a list, and the exported
    current-day record whenever there was one; a file exported without
    a current-day record leaves the current-day record of the importing
    storage in place. *)
Theorem export_import_round_trip (exportDate : string) (file : text)
    (ls ls1 : gmap string text) :
  exportDataToJson exportDate ls = (Ok (true, Some file), ls1) →
  ls1 = ls ∧
  (∃ ls',
     importDataFromJson ToNumber file ls = (Ok true, ls') ∧
     ls' !! STORAGE_KEY = ls !! STORAGE_KEY ∧
     ∃ log, loadWeeklyData ls = (Ok log, ls) ∧
            loadWeeklyData ls' = (Ok log, ls')) ∧
  (∀ other,
     ∃ ls',
       importDataFromJson ToNumber file other = (Ok true, ls') ∧
       (∀ v, ls !! STORAGE_KEY = Some (Encoded v) → truthy (Some v) = true →
          ls' !! STORAGE_KEY = ls !! STORAGE_KEY) ∧
       (item_truthy (ls !! STORAGE_KEY) = false →
          ls' !! STORAGE_KEY = other !! STORAGE_KEY) ∧
       (∀ items, loadWeeklyData ls = (Ok (JArr items), ls) →
          loadWeeklyData ls' = (Ok (JArr items), ls'))).
Proof.
  intros Hexp. split; [by apply exportDataToJson_eval in Hexp as [? _]|]. split.
  - destruct (import_of_export _ _ _ _ ls Hexp) as (cur & arch & Hcur & Harch & ->).
    eexists. split; [reflexivity|]. split.
    + assert ((if truthy (Some cur) then <[STORAGE_KEY:=Encoded cur]> ls else ls)
                !! STORAGE_KEY = ls !! STORAGE_KEY) as Hsame.
      { destruct (truthy (Some cur)) eqn:Ht; [|done].
        rewrite lookup_insert_eq.
        destruct (item_truthy (ls !! STORAGE_KEY)); [done|by subst cur]. }
      destruct arch; try exact Hsame.
      by rewrite lookup_insert_ne.
    + eexists. split; [apply loadWeeklyData_eval|].
      rewrite loadWeeklyData_eval. f_equal. f_equal.
      assert ((if truthy (Some cur) then <[STORAGE_KEY:=Encoded cur]> ls else ls)
                !! WEEKLY_KEY = ls !! WEEKLY_KEY) as Hsame.
      { destruct (truthy (Some cur)); [by rewrite lookup_insert_ne|done]. }
      destruct (ls !! WEEKLY_KEY) as [[a|s]|] eqn:Hw; cbn in Harch.
      * injection Harch as <-.
        destruct a; cbv zeta; rewrite ?lookup_insert_eq, ?Hsame; done.
      * destruct (bool_decide (s = "")); cbn in Harch; [|done].
        subst arch. by rewrite lookup_insert_eq.
      * subst arch. by rewrite lookup_insert_eq.
  - intros other.
    destruct (import_of_export _ _ _ _ other Hexp) as (cur & arch & Hcur & Harch & ->).
    eexists. split; [reflexivity|]. split; [|split].
    + intros v Hday Htruthy. rewrite Hday in Hcur. cbn in Hcur.
      injection Hcur as <-. rewrite Htruthy, Hday.
      destruct arch; rewrite ?lookup_insert_ne by done; by rewrite lookup_insert_eq.
    + intros Hnone. rewrite Hnone in Hcur. subst cur. cbn.
      destruct arch; by rewrite ?lookup_insert_ne.
    + intros items Hlog. rewrite loadWeeklyData_eval in Hlog.
      assert (arch = JArr items) as ->.
      { destruct (ls !! WEEKLY_KEY) as [[a|s]|]; cbn in Harch.
        - injection Harch as <-. congruence.
        - destruct (bool_decide (s = "")); cbn in Harch; [|done].
          congruence.
        - congruence. }
      rewrite loadWeeklyData_eval. by rewrite lookup_insert_eq.
Qed.

End Properties.

(** The rollover of [yesterday]'s record on the next day. *)
Lemma archive_iff_activity_witness :
  loadWeeklyData persisted = (Ok (JArr []), persisted) ∧
  persisted !! STORAGE_KEY = Some (Encoded (DayData_json yesterday)) ∧
  date yesterday ≠ "Mon Nov 02 2026" ∧
  getTotalTime (categories yesterday) = Num 1500 ∧
  ∃ ls' log',
    loadTodayData (λ _, NaN) "Mon Nov 02 2026" persisted
      = (Ok (Some (JObj [])), ls') ∧
    ls' !! STORAGE_KEY = None ∧
    loadWeeklyData ls' = (Ok (JArr log'), ls') ∧
    last log' = Some (DayData_json yesterday).
Proof.
  split; [reflexivity|]. split; [reflexivity|].
  split; [discriminate|]. split; [reflexivity|].
  destruct (archive_iff_activity (λ _, NaN) "Mon Nov 02 2026" yesterday []
              persisted eq_refl) as (ls' & _ & Hclear & _ & _ & Hload).
  destruct Hload as (Hload & Htail & _); [reflexivity|discriminate|].
  destruct (Htail 1500%Z eq_refl eq_refl) as (log' & Hlog & Hlast).
  exists ls', log'. repeat split; assumption.
Defined.


(** Importing the empty object. *)
Lemma import_without_data_succeeds_witness :
  (assoc "version" [] = None ∨
   ∃ n, assoc "version" [] = Some (JNum n) ∧ (n ≤ 1)%Z) ∧
  ∃ ls',
    importDataFromJson (λ _, NaN) (Encoded (JObj [])) persisted = (Ok true, ls') ∧
    ls' = persisted.
Proof.
  split; [left; reflexivity|].
  destruct (import_without_data_succeeds (λ _, NaN) [] persisted
              (or_introl eq_refl)) as (ls' & Himp & Hsame).
  exists ls'. split; [exact Himp|exact (Hsame eq_refl eq_refl)].
Defined.

(** Exporting [persisted], then importing the file back, and into an
    empty storage. *)
Lemma export_import_round_trip_witness :
  exportDataToJson "2026-11-02T09:00:00.000Z" persisted
    = (Ok (true, Some snapshot), persisted) ∧
  (∃ ls',
     importDataFromJson (λ _, NaN) snapshot persisted = (Ok true, ls') ∧
     ls' !! STORAGE_KEY = persisted !! STORAGE_KEY) ∧
  (∃ ls',
     importDataFromJson (λ _, NaN) snapshot ∅ = (Ok true, ls') ∧
     ls' !! STORAGE_KEY = persisted !! STORAGE_KEY ∧
     loadWeeklyData ls' = (Ok (JArr []), ls')).
Proof.
  split; [reflexivity|].
  destruct (export_import_round_trip (λ _, NaN) "2026-11-02T09:00:00.000Z"
              snapshot persisted persisted eq_refl)
    as (_ & (ls' & Himp & Hday & _) & Hother).
  split; [exists ls'; split; [exact Himp|exact Hday]|].
  destruct (Hother ∅) as (ls'' & Himp' & Hday' & _ & Hlog').
  exists ls''. split; [exact Himp'|].
  split; [exact (Hday' (DayData_json yesterday) eq_refl eq_refl)|].
  exact (Hlog' [] eq_refl).
Defined.

End StorageFacts.

(** ** Properties of the session state machine *)

Module HookFacts.
Import Hook.


Lemma single_interval_init cats : single_interval (init cats).
Proof. split; [|done]. intros id cb H. cbn in H. by rewrite lookup_empty in H. Qed.

Lemma single_interval_size s : single_interval s → size (intervals s) ≤ 1.
Proof.
  intros [Hlive _].
  destruct (intervalRef s) as [id|] eqn:Href.
  - assert (intervals s ⊆ {[id := default (stopwatch "") (intervals s !! id)]}) as Hsub.
    { apply map_subseteq_spec. intros i cb Hi.
      destruct (Hlive _ _ Hi) as [[= ->] _].
      rewrite Hi. cbn. apply lookup_singleton_eq. }
    apply map_subseteq_size in Hsub. by rewrite map_size_singleton in Hsub.
  - assert (intervals s = ∅) as ->; [|rewrite map_size_empty; lia].
    apply map_empty. intros i. destruct (intervals s !! i) eqn:Hi; [|done].
    by destruct (Hlive _ _ Hi).
Qed.

Lemma stopActive_intervals s :
  single_interval s →
  intervals (stopActive s) = ∅ ∧ intervalRef (stopActive s) = None ∧
  activeCategory (stopActive s) = None ∧
  nextHandle (stopActive s) = nextHandle s ∧
  categories (stopActive s) = categories s ∧
  completions (stopActive s) = completions s.
Proof.
  intros (Hlive & Hzero & Hnext). unfold stopActive.
  destruct (intervalRef s) as [id|] eqn:Href.
  - rewrite bool_decide_eq_true_2 by congruence. cbn.
    split; [|done]. apply map_empty. intros i.
    destruct (decide (i = id)) as [->|Hne]; [apply lookup_delete_eq|].
    rewrite lookup_delete_ne by done.
    destruct (intervals s !! i) eqn:Hi; [|done].
    destruct (Hlive _ _ Hi). congruence.
  - cbn. rewrite Href. split; [|done]. apply map_empty. intros i.
    destruct (intervals s !! i) eqn:Hi; [|done].
    by destruct (Hlive _ _ Hi).
Qed.

Lemma startCategory_spec name s :
  single_interval s →
  intervals (startCategory name s) = {[nextHandle s := stopwatch name]} ∧
  intervalRef (startCategory name s) = Some (nextHandle s) ∧
  activeCategory (startCategory name s) = Some name ∧
  nextHandle (startCategory name s) = S (nextHandle s) ∧
  categories (startCategory name s) = categories s ∧
  completions (startCategory name s) = completions s.
Proof.
  intros Hs. destruct (stopActive_intervals s Hs) as (Hi & Hr & Ha & Hn & Hc & Hd).
  unfold startCategory, setInterval. cbn -[stopActive]. rewrite Hi, Hn, Hc, Hd. done.
Qed.

Lemma startTimer_spec name seconds ringtone now s :
  single_interval s →
  intervals (startTimer name seconds ringtone now s)
    = {[nextHandle s := countdown name ringtone now (now + seconds * 1000)%Z 0%Z]} ∧
  intervalRef (startTimer name seconds ringtone now s) = Some (nextHandle s) ∧
  activeCategory (startTimer name seconds ringtone now s) = Some name ∧
  nextHandle (startTimer name seconds ringtone now s) = S (nextHandle s) ∧
  categories (startTimer name seconds ringtone now s) = categories s ∧
  completions (startTimer name seconds ringtone now s) = completions s.
Proof.
  intros Hs. destruct (stopActive_intervals s Hs) as (Hi & Hr & Ha & Hn & Hc & Hd).
  unfold startTimer, setInterval. cbn -[stopActive]. rewrite Hi, Hn, Hc, Hd. done.
Qed.

Lemma single_interval_singleton s id cb :
  intervals s = {[id := cb]} → intervalRef s = Some id → id ≠ 0 →
  id < nextHandle s → single_interval s.
Proof.
  intros Hi Hr Hid Hn. split; [|split; [congruence|lia]].
  intros i cb' Hl. rewrite Hi in Hl.
  apply lookup_singleton_Some in Hl as [<- _]. done.
Qed.

Lemma single_interval_call now c s :
  single_interval s → targets_active s →
  ∃ s', step now (call_event c) s = Ok s' ∧ single_interval s' ∧ targets_active s'.
Proof.
  intros Hs Ht. pose proof Hs as (_ & _ & Hnext).
  destruct c as [name|name seconds ringtone|]; cbn -[startCategory startTimer stopActive];
    eexists; (split; [reflexivity|]).
  - destruct (startCategory_spec name s Hs) as (Hi & Hr & Ha & Hn & _).
    split.
    + eapply single_interval_singleton; [exact Hi|exact Hr|done|lia].
    + intros id cb Hl. rewrite Hi in Hl.
      apply lookup_singleton_Some in Hl as [_ <-]. done.
  - destruct (startTimer_spec name seconds ringtone now s Hs) as (Hi & Hr & Ha & Hn & _).
    split.
    + eapply single_interval_singleton; [exact Hi|exact Hr|done|lia].
    + intros id cb Hl. rewrite Hi in Hl.
      apply lookup_singleton_Some in Hl as [_ <-]. done.
  - destruct (stopActive_intervals s Hs) as (Hi & Hr & Ha & Hn & _).
    split.
    + split; [|split; [congruence|by rewrite Hn]].
      intros id cb Hl. by rewrite Hi, lookup_empty in Hl.
    + intros id cb Hl. by rewrite Hi, lookup_empty in Hl.
Qed.

Lemma run_calls (calls : list (Z * session_call)) s :
  single_interval s → targets_active s →
  ∃ s', run (prod_map id call_event <$> calls) s = Ok s' ∧
        single_interval s' ∧ targets_active s'.
Proof.
  revert s. induction calls as [|[now c] calls IH]; intros s Hs Ht.
  - by exists s.
  - destruct (single_interval_call now c s Hs Ht) as (s1 & Hstep & Hs1 & Ht1).
    destruct (IH s1 Hs1 Ht1) as (s' & Hrun & Hs' & Ht').
    exists s'. split; [|done]. cbn. cbn in Hstep. by rewrite Hstep.
Qed.

Lemma single_interval_stopActive s :
  single_interval s → single_interval (stopActive s).
Proof.
  intros Hs. destruct (stopActive_intervals s Hs) as (Hi & Hr & _ & Hn & _).
  destruct Hs as (_ & _ & Hnext).
  split; [|split; [congruence|by rewrite Hn]].
  intros id cb Hl. by rewrite Hi, lookup_empty in Hl.
Qed.

Lemma single_interval_setCategories f s :
  single_interval s → single_interval (setCategories f s).
Proof. done. Qed.

Lemma single_interval_setActiveCategory a s :
  single_interval s → single_interval (setActiveCategory a s).
Proof. done. Qed.

Lemma single_interval_fire id now s s' :
  single_interval s → fire id now s = Ok s' → single_interval s'.
Proof.
  intros Hs. unfold fire.
  destruct (intervals s !! id) as [[name|name ringtone startTime endTime elapsed]|] eqn:Hi.
  - unfold stopwatch_tick. destruct (categories s !! name); [|done].
    intros [= <-]. by apply single_interval_setCategories.
  - unfold countdown_tick.
    set (credited := if _ && _ then _ else _).
    assert (∀ s1, credited = Ok s1 → single_interval s1) as Hcred.
    { subst credited. intros s1.
      destruct (_ && _); [|by intros [= <-]].
      destruct (categories s !! name); [|done]. intros [= <-].
      destruct Hs as (Hlive & Hzero & Hnext).
      split; [|done]. intros i cb Hl. cbn in Hl.
      destruct (decide (i = id)) as [->|Hne].
      - by apply (Hlive id _ Hi).
      - rewrite lookup_insert_ne in Hl by done. by apply (Hlive i cb). }
    destruct credited as [s1|e]; [|done].
    specialize (Hcred s1 eq_refl).
    case_bool_decide; intros [= <-]; [|exact Hcred].
    destruct Hcred as (Hlive & Hzero & Hnext).
    destruct (intervalRef s1) as [r|] eqn:Hr;
      (split; [|done]); intros i cb Hl; cbn in Hl.
    + destruct (decide (i = r)) as [->|Hne]; [by rewrite lookup_delete_eq in Hl|].
      rewrite lookup_delete_ne in Hl by done.
      destruct (Hlive i cb Hl). congruence.
    + by destruct (Hlive i cb Hl).
  - by intros [= <-].
Qed.

Lemma single_interval_startCategory name s :
  single_interval s → single_interval (startCategory name s).
Proof.
  intros Hs. pose proof Hs as (_ & _ & Hnext).
  destruct (startCategory_spec name s Hs) as (Hi & Hr & _ & Hn & _).
  eapply single_interval_singleton; [exact Hi|exact Hr|done|lia].
Qed.

Lemma single_interval_startTimer name seconds ringtone now s :
  single_interval s → single_interval (startTimer name seconds ringtone now s).
Proof.
  intros Hs. pose proof Hs as (_ & _ & Hnext).
  destruct (startTimer_spec name seconds ringtone now s Hs) as (Hi & Hr & _ & Hn & _).
  eapply single_interval_singleton; [exact Hi|exact Hr|done|lia].
Qed.

(** Whatever happens to the hook, at most one interval is live. *)
Lemma single_interval_step now e s s' :
  single_interval s → step now e s = Ok s' → single_interval s'.
Proof.
  intros Hs.
  destruct e as [name|name seconds ringtone| |name color|oldName newName newColor|name|id];
    cbn -[startCategory startTimer stopActive addCategory editCategory deleteCategory].
  - intros [= <-]. by apply single_interval_startCategory.
  - intros [= <-]. by apply single_interval_startTimer.
  - intros [= <-]. by apply single_interval_stopActive.
  - intros [= <-]. unfold addCategory.
    destruct (blank name); [done|]. by case_bool_decide.
  - intros [= <-]. unfold editCategory.
    destruct (blank oldName || blank newName); [done|].
    destruct (_ && _); [done|].
    repeat case_bool_decide; done.
  - intros [= <-]. unfold deleteCategory.
    destruct (_ || _); [done|].
    case_bool_decide; [|done].
    by apply single_interval_setCategories, single_interval_stopActive.
  - apply single_interval_fire; done.
Qed.

Lemma single_interval_run es s s' :
  single_interval s → run es s = Ok s' → size (intervals s') ≤ 1.
Proof.
  revert s. induction es as [|[now e] es IH]; intros s Hs.
  - intros [= <-]. by apply single_interval_size.
  - cbn. destruct (step now e s) as [s1|] eqn:Hstep; [|done].
    apply IH. by eapply single_interval_step.
Qed.

(** C3. After any sequence of [startCategory], [startTimer] and
    [stopActive] calls at most one interval is live, and it adds to the
    active category.  A start call made in such a state leaves exactly
    one live interval, which adds to the started category, the active
    one; every interval that was live before the call is cleared. *)
Theorem at_most_one_session (cats : gmap string CategoryData)
    (calls : list (Z * session_call)) :
  ∃ s,
    run (prod_map id call_event <$> calls) (init cats) = Ok s ∧
    size (intervals s) ≤ 1 ∧
    (∀ id cb, intervals s !! id = Some cb →
       activeCategory s = Some (target cb)) ∧
    (∀ name,
       let s' := startCategory name s in
       activeCategory s' = Some name ∧
       ∃ id, intervals s' = {[id := stopwatch name]} ∧ intervals s !! id = None) ∧
    (∀ name seconds ringtone now,
       let s' := startTimer name seconds ringtone now s in
       activeCategory s' = Some name ∧
       ∃ id cb, intervals s' = {[id := cb]} ∧ target cb = name ∧
                intervals s !! id = None).
Proof.
  destruct (run_calls calls (init cats)) as (s & Hrun & Hs & Ht).
  { apply single_interval_init. }
  { intros id cb H. cbn in H. by rewrite lookup_empty in H. }
  exists s. split; [done|]. split; [by apply single_interval_size|].
  split; [done|].
  assert (intervals s !! nextHandle s = None) as Hfresh.
  { destruct (intervals s !! nextHandle s) eqn:Hl; [|done].
    destruct Hs as (Hlive & _). destruct (Hlive _ _ Hl). lia. }
  split.
  - intros name s'. destruct (startCategory_spec name s Hs) as (Hi & _ & Ha & _).
    split; [done|]. by exists (nextHandle s).
  - intros name seconds ringtone now s'.
    destruct (startTimer_spec name seconds ringtone now s Hs) as (Hi & _ & Ha & _).
    split; [done|]. by eexists (nextHandle s), _.
Qed.

Lemma number_add_0 t : number_add t (Num 0) = t.
Proof. destruct t as [z|]; [|done]. cbn. f_equal. lia. Qed.

Lemma number_add_assoc t a b :
  number_add (number_add t (Num a)) (Num b) = number_add t (Num (a + b)).
Proof. destruct t as [z|]; [|done]. cbn. f_equal. lia. Qed.

Lemma ceil_div1000_pos x : (0 < x)%Z → (0 < ceil_div1000 x)%Z.
Proof.
  intros Hx. unfold ceil_div1000.
  assert (- x / 1000 < 0)%Z; [|lia].
  apply Z.div_lt_upper_bound; lia.
Qed.

Lemma ceil_div1000_nonpos x : (x ≤ 0)%Z → (ceil_div1000 x ≤ 0)%Z.
Proof.
  intros Hx. unfold ceil_div1000.
  assert (0 ≤ - x / 1000)%Z; [|lia].
  apply Z.div_pos; lia.
Qed.

(** A stopwatch tick adds one second, whatever the clock shows. *)
Lemma fire_stopwatch id name now s c :
  intervals s !! id = Some (stopwatch name) →
  categories s !! name = Some c →
  fire id now s =
  Ok (setCategories <[name := mkCategoryData (number_add (time c) (Num 1)) (color c)]> s).
Proof. intros Hi Hc. unfold fire, stopwatch_tick. by rewrite Hi, Hc. Qed.

(** A countdown tick before the deadline credits the whole seconds
    elapsed since the start that are not credited yet. *)
Lemma fire_countdown_running id name ringtone startTime endTime elapsed now s c :
  intervals s !! id = Some (countdown name ringtone startTime endTime elapsed) →
  categories s !! name = Some c →
  (now < endTime)%Z →
  let elapsed' := Z.max elapsed ((now - startTime) / 1000) in
  ∃ s',
    fire id now s = Ok s' ∧
    intervals s' !! id = Some (countdown name ringtone startTime endTime elapsed') ∧
    categories s' !! name
      = Some (mkCategoryData (number_add (time c) (Num (elapsed' - elapsed))) (color c)) ∧
    activeCategory s' = activeCategory s ∧
    intervalRef s' = intervalRef s ∧
    completions s' = completions s.
Proof.
  intros Hi Hc Hnow elapsed'. unfold fire. rewrite Hi. unfold countdown_tick.
  rewrite (bool_decide_eq_true_2 (Z.max 0 (ceil_div1000 (endTime - now)) > 0)%Z).
  2: { pose proof (ceil_div1000_pos (endTime - now)). lia. }
  rewrite andb_true_r.
  rewrite (bool_decide_eq_false_2 (now >= endTime)%Z) by lia.
  case_bool_decide as Hinc.
  - rewrite Hc. eexists. split; [reflexivity|]. cbn.
    rewrite !lookup_insert_eq.
    replace elapsed' with ((now - startTime) / 1000)%Z by lia. done.
  - exists s. split; [done|].
    replace elapsed' with elapsed by lia.
    rewrite Z.sub_diag, number_add_0. by destruct c.
Qed.

(** The first countdown tick at or after the deadline credits nothing,
    ends the session and sends the completion signal. *)
Lemma fire_countdown_deadline id name ringtone startTime endTime elapsed now s :
  intervals s !! id = Some (countdown name ringtone startTime endTime elapsed) →
  (endTime ≤ now)%Z →
  fire id now s =
  Ok (signal_completion name
        (setActiveCategory None
           (set_intervalRef None (clearInterval (intervalRef s) s)))).
Proof.
  intros Hi Hnow. unfold fire. rewrite Hi. unfold countdown_tick.
  rewrite (bool_decide_eq_false_2 (Z.max 0 (ceil_div1000 (endTime - now)) > 0)%Z).
  2: { pose proof (ceil_div1000_nonpos (endTime - now)). lia. }
  rewrite andb_false_r.
  by rewrite (bool_decide_eq_true_2 (now >= endTime)%Z) by lia.
Qed.

(** A tick whose target has no entry throws. *)
Lemma fire_stopwatch_missing id name now s :
  intervals s !! id = Some (stopwatch name) →
  categories s !! name = None →
  fire id now s = Throw TypeError.
Proof. intros Hi Hc. unfold fire, stopwatch_tick. by rewrite Hi, Hc. Qed.

Lemma fire_countdown_missing id name ringtone startTime endTime elapsed now s :
  intervals s !! id = Some (countdown name ringtone startTime endTime elapsed) →
  categories s !! name = None →
  (now < endTime)%Z →
  (elapsed < (now - startTime) / 1000)%Z →
  fire id now s = Throw TypeError.
Proof.
  intros Hi Hc Hnow Hinc. unfold fire. rewrite Hi. unfold countdown_tick.
  rewrite (bool_decide_eq_true_2 (Z.max 0 (ceil_div1000 (endTime - now)) > 0)%Z).
  2: { pose proof (ceil_div1000_pos (endTime - now)). lia. }
  rewrite bool_decide_eq_true_2 by lia. cbn. by rewrite Hc.
Qed.

(** Ticks of one countdown, all before its deadline: the seconds
    credited are the largest whole-second count any of them has seen. *)
Lemma run_countdown_ticks id name ringtone startTime endTime (ticks : list Z) :
  ∀ elapsed s c,
  intervals s !! id = Some (countdown name ringtone startTime endTime elapsed) →
  categories s !! name = Some c →
  Forall (λ t, t < endTime)%Z ticks →
  let elapsed' := foldl Z.max elapsed ((λ t, (t - startTime) / 1000)%Z <$> ticks) in
  ∃ s',
    run ((λ t, (t, Fire id)) <$> ticks) s = Ok s' ∧
    intervals s' !! id = Some (countdown name ringtone startTime endTime elapsed') ∧
    categories s' !! name
      = Some (mkCategoryData (number_add (time c) (Num (elapsed' - elapsed))) (color c)) ∧
    activeCategory s' = activeCategory s ∧
    intervalRef s' = intervalRef s ∧
    completions s' = completions s.
Proof.
  induction ticks as [|t ticks IH]; intros elapsed s c Hi Hc Hall elapsed'.
  - exists s. split; [done|]. subst elapsed'. cbn.
    rewrite Z.sub_diag, number_add_0. by destruct c.
  - apply Forall_cons in Hall as [Ht Hall].
    destruct (fire_countdown_running _ _ _ _ _ _ t s c Hi Hc Ht)
      as (s1 & Hfire & Hi1 & Hc1 & Ha1 & Hr1 & Hd1).
    destruct (IH _ s1 _ Hi1 Hc1 Hall) as (s' & Hrun & Hi' & Hc' & Ha' & Hr' & Hd').
    exists s'. split; [cbn; by rewrite Hfire|].
    subst elapsed'. cbn in *. split; [done|]. split; [|by rewrite Ha', Hr', Hd'].
    rewrite Hc'. rewrite number_add_assoc. do 4 f_equal; lia.
Qed.

Lemma foldl_max_bounded (l : list Z) (a b : Z) :
  (a ≤ b)%Z → Forall (λ x, x ≤ b)%Z l → (a ≤ foldl Z.max a l ≤ b)%Z.
Proof.
  revert a. induction l as [|x l IH]; intros a Ha Hall; [cbn; lia|].
  apply Forall_cons in Hall as [Hx Hall]. cbn.
  specialize (IH (Z.max a x) ltac:(lia) Hall). lia.
Qed.

Lemma foldl_max_last (l : list Z) (a b : Z) :
  (a ≤ b)%Z → Forall (λ x, x ≤ b)%Z l → foldl Z.max a (l ++ [b]) = b.
Proof.
  intros Ha Hall. rewrite foldl_app. cbn.
  pose proof (foldl_max_bounded l a b Ha Hall). lia.
Qed.

Lemma run_app es1 es2 s :
  run (es1 ++ es2) s =
  match run es1 s with
  | Ok s' => run es2 s'
  | Throw e => Throw e
  end.
Proof.
  revert s. induction es1 as [|[now e] es1 IH]; intros s; [done|].
  cbn. destruct (step now e s); [apply IH|done].
Qed.

Lemma run_cleared_ticks id (ticks : list Z) s :
  intervals s !! id = None →
  run ((λ t, (t, Fire id)) <$> ticks) s = Ok s.
Proof.
  intros Hi. induction ticks as [|t ticks IH]; [done|].
  cbn. unfold fire. by rewrite Hi.
Qed.

(** C1. A ten-second countdown on "Work" whose callback runs every
    100 ms ends idle with one completion signal, but with 9 seconds
    credited: the tick that reaches the deadline finds [remaining = 0]
    and adds nothing.  When the callbacks are held back until 12 s, the
    same tick drops all ten seconds. *)
Theorem countdown_drops_final_seconds :
  (∃ s, run ((0%Z, StartTimer "Work" 10 "") :: every 100 1 120) (init work) = Ok s ∧
        time_of "Work" s = Some (Num 9) ∧
        activeCategory s = None ∧
        completions s = ["Work"]) ∧
  (∃ s, run [(0%Z, StartTimer "Work" 10 ""); (12000%Z, Fire 1)] (init work) = Ok s ∧
        time_of "Work" s = Some (Num 0) ∧
        activeCategory s = None ∧
        completions s = ["Work"]).
Proof.
  split; (eexists; split; [vm_compute; reflexivity|]); by vm_compute.
Qed.

(** X17. Whatever the schedule of its callbacks, a countdown of
    [seconds > 0] seconds that reaches its deadline ends idle with
    exactly one completion signal and with fewer than [seconds] seconds
    credited. *)
Lemma countdown_credit_below_duration (cats : gmap string CategoryData)
    (name ringtone : string) (c : CategoryData) (seconds t0 t_end : Z)
    (before after : list Z) :
  cats !! name = Some c →
  (0 < seconds)%Z →
  Forall (λ t, t < t0 + seconds * 1000)%Z before →
  (t0 + seconds * 1000 ≤ t_end)%Z →
  ∃ s credited,
    run ((t0, StartTimer name seconds ringtone)
           :: ((λ t, (t, Fire 1)) <$> (before ++ t_end :: after))) (init cats) = Ok s ∧
    time_of name s = Some (number_add (time c) (Num credited)) ∧
    (0 ≤ credited < seconds)%Z ∧
    activeCategory s = None ∧
    completions s = [name].
Proof.
  intros Hc Hpos Hbefore Hend.
  set (s0 := startTimer name seconds ringtone t0 (init cats)).
  assert (intervals s0 !! 1 = Some (countdown name ringtone t0 (t0 + seconds * 1000)%Z 0%Z))
    as Hi0 by (cbn; apply lookup_insert_eq).
  destruct (run_countdown_ticks 1 name ringtone t0 _ before 0%Z s0 c Hi0 Hc Hbefore)
    as (s1 & Hrun1 & Hi1 & Hc1 & Ha1 & Hr1 & Hd1).
  set (credited := foldl Z.max 0%Z ((λ t, (t - t0) / 1000)%Z <$> before)) in *.
  pose proof (fire_countdown_deadline 1 _ _ _ _ _ t_end s1 Hi1 Hend) as Hfire.
  eexists _, credited.
  split.
  { cbn -[startTimer]. fold s0. rewrite fmap_app, run_app, Hrun1. cbn.
    rewrite Hfire. apply run_cleared_ticks. cbn. rewrite Hr1. cbn.
    apply lookup_delete_eq. }
  clear Hfire.
  assert (intervalRef s1 = Some 1) as Hr1' by (by rewrite Hr1).
  split; [|split; [|split]].
  - unfold time_of. cbn. rewrite Hr1'. cbn. rewrite Hc1. cbn.
    by rewrite Z.sub_0_r.
  - assert (0 ≤ credited ≤ seconds - 1)%Z; [|lia].
    apply foldl_max_bounded; [lia|].
    apply Forall_fmap. eapply Forall_impl; [exact Hbefore|].
    intros t Ht. cbn in Ht |- *.
    assert ((t - t0) / 1000 < seconds)%Z; [|lia].
    apply Z.div_lt_upper_bound; lia.
  - reflexivity.
  - cbn. rewrite Hr1'. cbn. by rewrite Hd1.
Qed.

(** C2 as stated fails for the stopwatch.  A stopwatch on "Reading" is
    started at time 0 and its callback first runs at 5000 ms: five
    whole seconds have elapsed, one second is credited. *)
Lemma stopwatch_tick_ignores_elapsed_time :
  ∃ s,
    run [(0%Z, StartCategory "Reading"); (5000%Z, Fire 1)] (init reading) = Ok s ∧
    time_of "Reading" s = Some (Num 1) ∧
    time_of "Reading" s ≠ Some (number_add (Num 0) (Num ((5000 - 0) / 1000))).
Proof.
  eexists. split; [vm_compute; reflexivity|]. split; [by vm_compute|].
  vm_compute. discriminate.
Qed.

(** C2, amended.  A stopwatch tick adds exactly one second to its
    category, whatever time has elapsed.  For a countdown, after any
    series of ticks before the deadline the category has been credited
    the whole seconds between the start and the latest tick, however
    many callbacks were late or missing in between. *)
Theorem tick_credit_by_mode :
  (∀ s id name c now,
     intervals s !! id = Some (stopwatch name) →
     categories s !! name = Some c →
     ∃ s', fire id now s = Ok s' ∧
           time_of name s' = Some (number_add (time c) (Num 1))) ∧
  (∀ s id name ringtone startTime endTime c (ticks : list Z) (now : Z),
     intervals s !! id = Some (countdown name ringtone startTime endTime 0) →
     categories s !! name = Some c →
     Forall (λ t, startTime ≤ t ≤ now)%Z ticks →
     (startTime ≤ now < endTime)%Z →
     ∃ s', run ((λ t, (t, Fire id)) <$> (ticks ++ [now])) s = Ok s' ∧
           time_of name s'
             = Some (number_add (time c) (Num ((now - startTime) / 1000)))).
Proof.
  split.
  - intros s id name c now Hi Hc. eexists.
    split; [by apply fire_stopwatch|].
    unfold time_of. cbn. by rewrite lookup_insert_eq.
  - intros s id name ringtone startTime endTime c ticks now Hi Hc Hticks Hnow.
    destruct (run_countdown_ticks id name ringtone startTime endTime (ticks ++ [now])
                0%Z s c Hi Hc) as (s' & Hrun & _ & Hc' & _).
    { apply Forall_app. split; [|by apply Forall_singleton; lia].
      eapply Forall_impl; [exact Hticks|]. cbn. lia. }
    exists s'. split; [done|]. unfold time_of. rewrite Hc'. cbn.
    rewrite fmap_app, list_fmap_singleton, foldl_max_last, Z.sub_0_r; [done| |].
    + apply Z.div_pos; lia.
    + apply Forall_fmap. eapply Forall_impl; [exact Hticks|]. cbn.
      intros t Ht. apply Z.div_le_mono; lia.
Qed.

(** One late stopwatch tick, and three irregular countdown ticks. *)
Lemma tick_credit_by_mode_witness :
  (∃ s', fire 1 5000 (startCategory "Reading" (init reading)) = Ok s' ∧
         time_of "Reading" s' = Some (Num 1)) ∧
  (∃ s', run ((λ t, (t, Fire 1)) <$> ([100; 2300] ++ [7400]))%Z
             (startTimer "Work" 10 "" 0 (init work)) = Ok s' ∧
         time_of "Work" s' = Some (Num 7)).
Proof.
  split.
  - apply (proj1 tick_credit_by_mode
             (startCategory "Reading" (init reading)) 1 "Reading"
             (mkCategoryData (Num 0) "#4C8BF5") 5000%Z); reflexivity.
  - apply (proj2 tick_credit_by_mode
             (startTimer "Work" 10 "" 0 (init work)) 1 "Work" "" 0%Z 10000%Z
             (mkCategoryData (Num 0) "#9C27B0") [100; 2300]%Z 7400%Z);
      [reflexivity|reflexivity| |lia].
    repeat constructor; lia.
Defined.

(** C7. [editCategory] does not look for [oldName]: on an empty store,
    renaming "Reading" to "Books" returns [true] and leaves an entry
    "Books" that has a color and no time. *)
Theorem editCategory_accepts_missing_name :
  ∃ s,
    editCategory "Reading" "Books" "#4C8BF5" (init ∅) = (true, s) ∧
    categories s = {["Books" := mkCategoryData NaN "#4C8BF5"]} ∧
    categories s ≠ categories (init ∅).
Proof.
  eexists. split; [vm_compute; reflexivity|]. split; [by vm_compute|].
  cbn. intros H. apply (f_equal (λ m, m !! "Books")) in H. by vm_compute in H.
Qed.

(** C8. Renaming the category a stopwatch runs on leaves the interval
    adding to the old name; its next tick reads [.time] of a missing
    entry and throws. *)
Theorem tick_on_missing_category_throws :
  (∃ s,
     run [(0%Z, StartCategory "Reading");
          (400%Z, EditCategory "Reading" "Books" "#4C8BF5")] (init reading) = Ok s ∧
     intervals s !! 1 = Some (stopwatch "Reading") ∧
     categories s !! "Reading" = None ∧
     fire 1 1000 s = Throw TypeError) ∧
  run [(0%Z, StartCategory "Reading");
       (400%Z, EditCategory "Reading" "Books" "#4C8BF5");
       (1000%Z, Fire 1)] (init reading) = Throw TypeError.
Proof.
  split; [|by vm_compute].
  eexists. split; [vm_compute; reflexivity|]. by vm_compute.
Qed.


(** Three start calls in a row. *)
Lemma at_most_one_session_witness :
  ∃ s,
    run (prod_map id call_event <$>
           [(0%Z, CallStartCategory "Reading");
            (3000%Z, CallStartTimer "Reading" 60 "");
            (9000%Z, CallStartCategory "Reading")]) (init reading) = Ok s ∧
    size (intervals s) ≤ 1.
Proof.
  destruct (at_most_one_session reading
              [(0%Z, CallStartCategory "Reading");
               (3000%Z, CallStartTimer "Reading" 60 "");
               (9000%Z, CallStartCategory "Reading")])
    as (s & Hrun & Hsize & _).
  exists s. split; [exact Hrun|exact Hsize].
Defined.

(** The parts of a rename that the code does check. *)

Lemma editCategory_duplicate oldName newName newColor s :
  oldName ≠ newName →
  is_Some (categories s !! newName) →
  editCategory oldName newName newColor s = (false, s).
Proof.
  intros Hne Hdup. unfold editCategory.
  destruct (blank oldName || blank newName); [done|].
  rewrite (bool_decide_eq_true_2 (oldName ≠ newName)) by done.
  by rewrite (bool_decide_eq_true_2 (is_Some (categories s !! newName))).
Qed.

Lemma editCategory_renames oldName newName newColor s c :
  blank oldName = false → blank newName = false →
  categories s !! oldName = Some c →
  oldName ≠ newName →
  categories s !! newName = None →
  ∃ s',
    editCategory oldName newName newColor s = (true, s') ∧
    categories s' !! newName = Some (mkCategoryData (time c) newColor) ∧
    categories s' !! oldName = None ∧
    activeCategory s' = (if bool_decide (activeCategory s = Some oldName)
                         then Some newName else activeCategory s).
Proof.
  intros Hb1 Hb2 Hold Hne Hnew. unfold editCategory.
  rewrite Hb1, Hb2, Hold. cbn.
  rewrite (bool_decide_eq_true_2 (oldName ≠ newName)) by done.
  rewrite (bool_decide_eq_false_2 (is_Some (categories s !! newName))).
  2: { rewrite Hnew. by intros [? ?]. }
  cbn. eexists. split; [reflexivity|].
  case_bool_decide; cbn;
    by rewrite lookup_insert_eq, lookup_insert_ne, lookup_delete_eq.
Qed.

Lemma editCategory_recolors name newColor s c :
  blank name = false →
  categories s !! name = Some c →
  ∃ s',
    editCategory name name newColor s = (true, s') ∧
    categories s' !! name = Some (mkCategoryData (time c) newColor) ∧
    activeCategory s' = activeCategory s.
Proof.
  intros Hb Hc. unfold editCategory. rewrite Hb, Hc. cbn.
  rewrite (bool_decide_eq_false_2 (name ≠ name)) by (intros H; by apply H).
  cbn. eexists. split; [reflexivity|]. cbn. by rewrite lookup_insert_eq.
Qed.

(** The part it does not: a missing [oldName] is accepted whenever the
    new name is free, and an entry without a time appears. *)
Lemma editCategory_missing oldName newName newColor s :
  blank oldName = false → blank newName = false →
  categories s !! oldName = None →
  categories s !! newName = None →
  ∃ s',
    editCategory oldName newName newColor s = (true, s') ∧
    categories s' !! newName = Some (mkCategoryData NaN newColor).
Proof.
  intros Hb1 Hb2 Hold Hnew. unfold editCategory.
  rewrite Hb1, Hb2, Hold. cbn.
  rewrite (bool_decide_eq_false_2 (is_Some (categories s !! newName))).
  2: { rewrite Hnew. by intros [? ?]. }
  rewrite andb_false_r.
  case_bool_decide; eexists; (split; [reflexivity|]).
  - case_bool_decide; cbn; by rewrite lookup_insert_eq.
  - cbn. assert (oldName = newName) as -> by (by destruct (decide (oldName = newName))).
    by rewrite lookup_insert_eq.
Qed.

End HookFacts.

(** ** Properties of the display helpers *)

Module UtilsFacts.
Import Storage StorageFacts.

Lemma number_add_comm a b : number_add a b = number_add b a.
Proof. destruct a, b; cbn; f_equal; lia. Qed.

Lemma number_add_0_r t : number_add t (Num 0) = t.
Proof. destruct t as [z|]; [|done]. cbn. f_equal. lia. Qed.

Lemma number_add_0_l a : number_add (Num 0) a = a.
Proof. by destruct a. Qed.

Lemma number_add_associative a b c :
  number_add (number_add a b) c = number_add a (number_add b c).
Proof. destruct a, b, c; cbn; f_equal; lia. Qed.

(** X1. A duration of [h] hours, [m < 60] minutes and [s < 60] seconds,
    within the integers a JavaScript number holds exactly, is displayed
    with exactly these three numbers. *)
Theorem formatTime_hms (h m s : Z) :
  (0 ≤ h)%Z → (0 ≤ m < 60)%Z → (0 ≤ s < 60)%Z →
  (h * 3600 + m * 60 + s ≤ 9007199254740991)%Z →
  formatTime (Num (h * 3600 + m * 60 + s))
  = pretty h +:+ "h " +:+ pretty m +:+ "m " +:+ pretty s +:+ "s".
Proof.
  intros Hh Hm Hs _. unfold formatTime, formatTime_parts.
  set (seconds := (h * 3600 + m * 60 + s)%Z).
  rewrite !Z.rem_mod_nonneg by lia.
  replace (seconds / 3600)%Z with h
    by (apply Z.div_unique with (m * 60 + s)%Z; lia).
  replace (seconds mod 3600)%Z with (m * 60 + s)%Z
    by (apply Z.mod_unique with h; lia).
  replace ((m * 60 + s) / 60)%Z with m by (apply Z.div_unique with s; lia).
  replace (seconds mod 60)%Z with s
    by (apply Z.mod_unique with (h * 60 + m)%Z; lia).
  done.
Qed.

Lemma most_time_loop (cats : list (string * CategoryData)) :
  ∃ name z,
    foldl most_step ("", Num 0) cats = (name, Num z) ∧
    (∀ k c y, (k, c) ∈ cats → time c = Num y → (y ≤ z)%Z) ∧
    ((z = 0%Z ∧ name = "") ∨
     ((0 < z)%Z ∧
      ∃ before c after,
        cats = before ++ (name, c) :: after ∧ time c = Num z ∧
        ∀ k' c' y, (k', c') ∈ before → time c' = Num y → (y < z)%Z)).
Proof.
  induction cats as [|[k c] cats IH] using rev_ind.
  - exists "", 0%Z. split; [done|]. split; [|by left].
    intros ??? Hin. by apply elem_of_nil in Hin.
  - destruct IH as (name & z & Hfold & Hmax & Hfirst).
    rewrite foldl_app, Hfold. cbn.
    destruct (time c) as [y|] eqn:Hy; cbn.
    + case_bool_decide as Hgt.
      * exists k, y. split; [done|]. split.
        { intros k' c' y' Hin Ht. apply elem_of_app in Hin as [Hin|Hin].
          - specialize (Hmax _ _ _ Hin Ht). lia.
          - apply list_elem_of_singleton in Hin as [= -> ->].
            rewrite Hy in Ht. injection Ht as ->. lia. }
        right. split; [destruct Hfirst as [[-> _]|[? _]]; lia|].
        exists cats, c, []. split; [done|]. split; [done|].
        intros k' c' y' Hin Ht. specialize (Hmax _ _ _ Hin Ht). lia.
      * exists name, z. split; [done|]. split.
        { intros k' c' y' Hin Ht. apply elem_of_app in Hin as [Hin|Hin].
          - by apply (Hmax _ _ _ Hin Ht).
          - apply list_elem_of_singleton in Hin as [= -> ->].
            rewrite Hy in Ht. injection Ht as ->. lia. }
        destruct Hfirst as [?|[Hz (before & c0 & after & -> & Hc0 & Hbefore)]];
          [by left|right].
        split; [done|]. exists before, c0, (after ++ [(k, c)]).
        split; [by rewrite <-app_assoc|done].
    + exists name, z. split; [done|]. split.
      { intros k' c' y' Hin Ht. apply elem_of_app in Hin as [Hin|Hin].
        - by apply (Hmax _ _ _ Hin Ht).
        - apply list_elem_of_singleton in Hin as [= -> ->]. congruence. }
      destruct Hfirst as [?|[Hz (before & c0 & after & -> & Hc0 & Hbefore)]];
        [by left|right].
      split; [done|]. exists before, c0, (after ++ [(k, c)]).
      split; [by rewrite <-app_assoc|done].
Qed.

(** X2. [getMostTimeSpentCategory] answers [null] exactly for the empty
    object.  Otherwise the time it reports is a number no recorded
    number exceeds; it is zero with the empty name when no category has
    a time above zero, and else it is the time of the named category,
    the first in enumeration order to reach it. *)
Theorem most_time_spent (cats : list (string * CategoryData)) :
  (getMostTimeSpentCategory cats = None ↔ cats = []) ∧
  ∀ name t,
    getMostTimeSpentCategory cats = Some (name, t) →
    ∃ z, t = Num z ∧
      (∀ k c y, (k, c) ∈ cats → time c = Num y → (y ≤ z)%Z) ∧
      ((z = 0%Z ∧ name = "") ∨
       ((0 < z)%Z ∧
        ∃ before c after,
          cats = before ++ (name, c) :: after ∧ time c = Num z ∧
          ∀ k' c' y, (k', c') ∈ before → time c' = Num y → (y < z)%Z)).
Proof.
  unfold getMostTimeSpentCategory. split.
  - case_bool_decide as Hlen.
    + split; [intros _; by apply length_zero_iff_nil|done].
    + split; [done|]. intros ->. by destruct Hlen.
  - intros name t Hsome. case_bool_decide; [done|]. injection Hsome as Hfold.
    destruct (most_time_loop cats) as (name' & z & Hfold' & Hmax & Hfirst).
    rewrite Hfold in Hfold'. injection Hfold' as -> ->. by exists z.
Qed.

Lemma total_NaN_absorbs (cats : list (string * CategoryData)) acc k c :
  (k, c) ∈ cats → time c = NaN →
  foldl (λ acc cat, number_add acc (time cat.2)) acc cats = NaN.
Proof.
  revert acc. induction cats as [|[k' c'] cats IH]; intros acc Hin Hc.
  - by apply elem_of_nil in Hin.
  - cbn. apply elem_of_cons in Hin as [[= <- <-]|Hin]; [|by apply IH].
    rewrite Hc. replace (number_add acc NaN) with NaN by (by destruct acc).
    apply foldl_total_NaN.
Qed.

Lemma total_nonneg_bounds (cats : list (string * CategoryData)) a :
  (∀ name c, (name, c) ∈ cats → ∃ z, time c = Num z ∧ (0 ≤ z)%Z) →
  ∃ t, foldl (λ acc cat, number_add acc (time cat.2)) (Num a) cats = Num t ∧
       (a ≤ t)%Z ∧
       (∀ k c y, (k, c) ∈ cats → time c = Num y → (a + y ≤ t)%Z) ∧
       ((∀ k c, (k, c) ∈ cats → ¬ active c) → t = a).
Proof.
  revert a. induction cats as [|[k c] cats IH]; intros a Hnn.
  - exists a. split; [done|]. split; [lia|]. split; [|done].
    intros ??? Hin. by apply elem_of_nil in Hin.
  - destruct (Hnn k c) as (z & Hz & Hz0); [left|].
    destruct (IH (a + z)%Z) as (t & Hfold & Hle & Hmax & Hidle).
    { intros k0 c0 Hin. apply (Hnn k0 c0). by right. }
    exists t. cbn. rewrite Hz. cbn. split; [done|]. split; [lia|]. split.
    + intros k' c' y Hin Hy. apply elem_of_cons in Hin as [[= -> ->]|Hin].
      * rewrite Hz in Hy. injection Hy as ->. lia.
      * specialize (Hmax _ _ _ Hin Hy). lia.
    + intros Hnone. rewrite Hidle.
      * assert (¬ (0 < z)%Z); [|lia].
        intros Hpos. apply (Hnone k c); [left|by exists z].
      * intros k' c' Hin. apply (Hnone k' c'). by right.
Qed.

(** X3. One time that is not a number makes the day's total [NaN].
    When every time is a non-negative number the total is a number that
    bounds each of them, and so the time [getMostTimeSpentCategory]
    reports, and it is zero exactly when no category has activity. *)
Theorem total_time_bounds (d : DayData) :
  (∀ k c, (k, c) ∈ categories d → time c = NaN →
     getTotalTime (categories d) = NaN) ∧
  (nonneg_times d →
   ∃ t, getTotalTime (categories d) = Num t ∧
        (∀ k c y, (k, c) ∈ categories d → time c = Num y → (y ≤ t)%Z) ∧
        (t = 0%Z ↔ ¬ has_activity d) ∧
        (∀ name z, getMostTimeSpentCategory (categories d) = Some (name, Num z) →
                   (z ≤ t)%Z)).
Proof.
  split; [intros k c; apply total_NaN_absorbs|].
  intros Hnn.
  destruct (total_nonneg_bounds (categories d) 0 Hnn) as (t & Htotal & Hle & Hmax & Hidle).
  exists t. split; [done|]. split; [|split].
  - intros k c y Hin Hy. specialize (Hmax _ _ _ Hin Hy). lia.
  - split.
    + intros ->. by apply total_zero_no_activity.
    + intros Hnone. apply Hidle. intros k c Hin Hact. apply Hnone. by exists k, c.
  - intros name z Hmost. unfold getMostTimeSpentCategory in Hmost.
    case_bool_decide; [done|]. injection Hmost as Hmost.
    destruct (most_time_loop (categories d))
      as (name' & z' & Hloop & _ & [[Hz _]|[_ (before & c & after & Hcats & Hc & _)]]);
      rewrite Hmost in Hloop; injection Hloop as Hname Hz'; subst name' z'.
    + lia.
    + assert ((name, c) ∈ categories d) as Hin.
      { rewrite Hcats. apply elem_of_app. right. left. }
      specialize (Hmax _ _ _ Hin Hc). lia.
Qed.

(** One hour, two minutes and five seconds. *)
Lemma formatTime_hms_witness :
  (0 ≤ 1)%Z ∧ (0 ≤ 2 < 60)%Z ∧ (0 ≤ 5 < 60)%Z ∧
  (1 * 3600 + 2 * 60 + 5 ≤ 9007199254740991)%Z ∧
  formatTime (Num (1 * 3600 + 2 * 60 + 5)) = "1h 2m 5s".
Proof.
  split; [lia|]. split; [lia|]. split; [lia|]. split; [lia|].
  rewrite (formatTime_hms 1 2 5) by lia. vm_compute. reflexivity.
Defined.

End UtilsFacts.

(** ** More properties of the persistence layer *)

Module PersistenceFacts.
Import Storage StorageFacts.

Section Properties.

Variable ToNumber : json → number.

Lemma archiveDay_result day ls ls' :
  archiveDay ToNumber day ls = (Ok (), ls') →
  ls' !! STORAGE_KEY = None ∧
  ∀ k, k ≠ STORAGE_KEY → k ≠ WEEKLY_KEY → ls' !! k = ls !! k.
Proof.
  unfold archiveDay. unfold_M.
  destruct (hasActivity ToNumber day) as [[]|]; [| |done].
  - destruct (if item_truthy (ls !! WEEKLY_KEY) then _ else _) as [[w|e] ls0] eqn:Hw.
    + assert (ls0 = ls) as ->.
      { destruct (item_truthy (ls !! WEEKLY_KEY)); [|by injection Hw].
        destruct (JSON_parse _); by injection Hw. }
      destruct (push w day); [|done]. intros [= <-].
      split; [apply lookup_delete_eq|]. intros k H1 H2.
      rewrite lookup_delete_ne by done. by rewrite lookup_insert_ne.
    + assert (ls0 = ls) as ->.
      { destruct (item_truthy (ls !! WEEKLY_KEY)); [|by injection Hw].
        destruct (JSON_parse _); by injection Hw. }
      cbn. intros [= <-].
      split; [apply lookup_delete_eq|]. intros k H1 H2.
      rewrite lookup_delete_ne by done. by rewrite lookup_insert_ne.
  - intros [= <-]. split; [apply lookup_delete_eq|]. intros k H1 H2.
    by rewrite lookup_delete_ne.
Qed.

Lemma loadTodayData_absent today ls :
  item_truthy (ls !! STORAGE_KEY) = false →
  loadTodayData ToNumber today ls = (Ok (Some (JObj [])), ls).
Proof. intros H. unfold loadTodayData. unfold_M. by rewrite H. Qed.

(** X4. A load that returns can be repeated on the same day: the second
    load returns the same categories and changes nothing in storage,
    also when the first one rolled the day over. *)
Theorem loadTodayData_idempotent today ls v ls' :
  loadTodayData ToNumber today ls = (Ok v, ls') →
  loadTodayData ToNumber today ls' = (Ok v, ls').
Proof.
  intros Hload. pose proof Hload as Hload'. revert Hload.
  unfold loadTodayData at 1. unfold_M.
  destruct (item_truthy (ls !! STORAGE_KEY)) eqn:Hraw; [|by intros [= <- <-]].
  destruct (JSON_parse _) as [parsed|]; [|done].
  destruct (get parsed "date") as [date|]; [|done].
  destruct (negb (strict_eq date today)).
  - destruct (archiveDay ToNumber parsed ls) as [[[]|] ls1] eqn:Harch; [|done].
    intros [= <- <-]. apply archiveDay_result in Harch as [Hclear _].
    apply loadTodayData_absent. by rewrite Hclear.
  - destruct (get parsed "categories"); [|done]. by intros [= <- <-].
Qed.

(** X5. What [saveData] stores, [loadTodayData] returns on the same
    day, whatever the storage held before; the load changes nothing. *)
Theorem saveData_loadTodayData today cats ls :
  (saveData today cats;; loadTodayData ToNumber today) ls
  = (Ok (Some cats),
     <[STORAGE_KEY := Encoded (JObj [("date", JStr today); ("categories", cats)])]> ls).
Proof.
  unfold saveData, loadTodayData. unfold_M. rewrite lookup_insert_eq. cbn.
  by rewrite bool_decide_eq_true_2.
Qed.

(** X6. After [clearAllData] the day starts empty and the log is empty,
    whatever the two keys held, unparsable text included; no other key
    of the storage is touched. *)
Theorem clearAllData_resets today ls :
  ∃ ls',
    clearAllData ls = (Ok (), ls') ∧
    loadTodayData ToNumber today ls' = (Ok (Some (JObj [])), ls') ∧
    loadWeeklyData ls' = (Ok (JArr []), ls') ∧
    ∀ k, k ≠ STORAGE_KEY → k ≠ WEEKLY_KEY → ls' !! k = ls !! k.
Proof.
  eexists. split; [reflexivity|]. split; [|split].
  - apply loadTodayData_absent.
    rewrite lookup_delete_ne by done. by rewrite lookup_delete_eq.
  - rewrite loadWeeklyData_eval. by rewrite lookup_delete_eq.
  - intros k H1 H2. by rewrite !lookup_delete_ne.
Qed.

(** X7. An import of text that does not parse, of [null] or of a value
    that is not an object, or of a snapshot whose version is a number
    above 1, answers [false] and writes nothing. *)
Theorem import_rejects jsonData ls :
  (∃ s, jsonData = Garbage s) ∨
  (∃ v, jsonData = Encoded v ∧ (v = JNull ∨ typeof_object v = false)) ∨
  (∃ v n, jsonData = Encoded v ∧ get v "version" = Ok (Some (JNum n)) ∧ (1 < n)%Z) →
  importDataFromJson ToNumber jsonData ls = (Ok false, ls).
Proof.
  intros [[s ->]|[(v & -> & Hv)|(v & n & -> & Hver & Hn)]].
  - reflexivity.
  - unfold importDataFromJson. unfold_M. cbn.
    destruct Hv as [->|Hobj]; [done|]. rewrite Hobj. by rewrite orb_true_r.
  - unfold importDataFromJson. unfold_M. unfold JSON_parse.
    destruct (negb (truthy (Some v)) || negb (typeof_object v)); [done|].
    rewrite Hver. cbn.
    rewrite (bool_decide_eq_false_2 (n = 0)%Z) by lia. cbn.
    by rewrite bool_decide_eq_true_2 by lia.
Qed.

(** X8. An import of a snapshot of version 1, or without version, that
    carries a current day and an archive array replaces both stored
    texts, whatever they were: the day record is the snapshot's, and
    [loadWeeklyData] returns the snapshot's array. *)
Theorem import_overwrites parsedData currentDay items ls :
  typeof_object parsedData = true →
  (get parsedData "version" = Ok None ∨
   ∃ n, get parsedData "version" = Ok (Some (JNum n)) ∧ (n ≤ 1)%Z) →
  get parsedData "currentDay" = Ok (Some currentDay) →
  truthy (Some currentDay) = true →
  get parsedData "archiveData" = Ok (Some (JArr items)) →
  ∃ ls',
    importDataFromJson ToNumber (Encoded parsedData) ls = (Ok true, ls') ∧
    ls' !! STORAGE_KEY = Some (Encoded currentDay) ∧
    loadWeeklyData ls' = (Ok (JArr items), ls').
Proof.
  intros Hobj Hver Hc Htruthy Ha.
  destruct (importDataFromJson_eval ToNumber parsedData ls Hobj)
    as (c & a & Hc' & Ha' & ->).
  { intros ->. by destruct Hver as [?|(? & ? & ?)]. }
  { intros version Hv.
    destruct Hver as [Hv'|(n & Hv' & Hn)]; rewrite Hv' in Hv; injection Hv as <-; cbn.
    - by apply bool_decide_eq_false_2.
    - destruct (bool_decide (n = 0%Z)); cbn; apply bool_decide_eq_false_2; lia. }
  rewrite Hc in Hc'. injection Hc' as <-. rewrite Ha in Ha'. injection Ha' as <-.
  eexists. split; [reflexivity|]. rewrite Htruthy. split.
  - rewrite lookup_insert_ne by done. by rewrite lookup_insert_eq.
  - rewrite loadWeeklyData_eval. by rewrite lookup_insert_eq.
Qed.

Lemma item_truthy_cases raw :
  (item_truthy raw = false ∧ ¬ corrupt raw) ∨
  (∃ v, JSON_parse (default (Garbage "") raw) = Ok v ∧
        item_truthy raw = true ∧ ¬ corrupt raw) ∨
  (item_truthy raw = true ∧ corrupt raw ∧
   JSON_parse (default (Garbage "") raw) = Throw SyntaxError).
Proof.
  destruct raw as [[v|s]|].
  - right; left. exists v. split; [done|]. split; [done|]. by intros (? & [= ?] & ?).
  - destruct (decide (s = "")) as [->|Hs].
    + left. split; [done|]. by intros (? & [= <-] & ?).
    + right; right. cbn. rewrite bool_decide_eq_false_2 by done.
      split; [done|]. split; [by exists s|done].
  - left. split; [done|]. by intros (? & [= ?] & ?).
Qed.

(** X9. An export never throws and never writes to storage.  It fails,
    producing no file, exactly when the day record or the log is a
    non-empty text that does not parse; every file it produces is one
    that an import accepts. *)
Theorem export_fails_on_corrupt_text exportDate ls :
  ∃ ok file,
    exportDataToJson exportDate ls = (Ok (ok, file), ls) ∧
    (ok = false ↔ corrupt (ls !! STORAGE_KEY) ∨ corrupt (ls !! WEEKLY_KEY)) ∧
    (ok = false → file = None) ∧
    (ok = true → ∃ t ls', file = Some t ∧
                          importDataFromJson ToNumber t ls = (Ok true, ls')).
Proof.
  assert (∀ c a, ∃ ls', importDataFromJson ToNumber
            (JSON_stringify (JObj [("version", JNum 1); ("exportDate", JStr exportDate);
                                   ("currentDay", c); ("archiveData", a)])) ls
            = (Ok true, ls')) as Himp.
  { intros c a. edestruct importDataFromJson_eval as (? & ? & ? & ? & ->);
      [| |intros version [= <-]; reflexivity|eexists; reflexivity]; done. }
  unfold exportDataToJson. unfold_M.
  destruct (item_truthy_cases (ls !! STORAGE_KEY))
    as [[Hct Hc]|[(c & Hc' & Hct & Hc)|(Hct & Hc & Hcp)]]; rewrite Hct, ?Hcp, ?Hc'; cbn.
  3: { exists false, None. split; [done|].
       split; [split; [intros _; by left|done]|]. split; done. }
  all: destruct (item_truthy_cases (ls !! WEEKLY_KEY))
      as [[Hat Ha]|[(a & Ha' & Hat & Ha)|(Hat & Ha & Hap)]]; rewrite Hat, ?Hap, ?Ha'; cbn.
  all: eexists _, _; (split; [reflexivity|]).
  all: split;
    [first [split; [done|intros [?|?]; done] | split; [intros _; by right|done]]|].
  all: split; [done|]; try done.
  all: intros _; eexists _; edestruct Himp as [ls' Hls']; exists ls';
    split; [reflexivity|exact Hls'].
Qed.




End Properties.

(** The load that rolls [yesterday] over, and the load after it. *)
Lemma loadTodayData_idempotent_witness :
  loadTodayData (λ _, NaN) "Mon Nov 02 2026" persisted
    = (Ok (Some (JObj [])), rolled_over) ∧
  loadTodayData (λ _, NaN) "Mon Nov 02 2026" rolled_over
    = (Ok (Some (JObj [])), rolled_over).
Proof.
  assert (loadTodayData (λ _, NaN) "Mon Nov 02 2026" persisted
          = (Ok (Some (JObj [])), rolled_over)) as Hload
    by (vm_compute; reflexivity).
  split; [exact Hload|].
  exact (loadTodayData_idempotent (λ _, NaN) _ _ _ _ Hload).
Defined.

(** Three files an import turns down: unparsable text, [null], and a
    snapshot of version 2. *)
Lemma import_rejects_witness :
  importDataFromJson (λ _, NaN) (Garbage "{oops") persisted = (Ok false, persisted) ∧
  importDataFromJson (λ _, NaN) (Encoded JNull) persisted = (Ok false, persisted) ∧
  get (JObj [("version", JNum 2)]) "version" = Ok (Some (JNum 2)) ∧
  (1 < 2)%Z ∧
  importDataFromJson (λ _, NaN) (Encoded (JObj [("version", JNum 2)])) persisted
    = (Ok false, persisted).
Proof.
  split; [|split; [|split; [reflexivity|split; [lia|]]]].
  - apply (import_rejects (λ _, NaN)). left. by exists "{oops".
  - apply (import_rejects (λ _, NaN)). right; left. exists JNull.
    split; [reflexivity|]. by left.
  - apply (import_rejects (λ _, NaN)). right; right.
    exists (JObj [("version", JNum 2)]), 2%Z.
    split; [reflexivity|]. split; [reflexivity|lia].
Defined.

(** Importing [snapshot] over a storage that holds an older log. *)
Lemma import_overwrites_witness :
  ∃ ls',
    importDataFromJson (λ _, NaN) snapshot rolled_over = (Ok true, ls') ∧
    ls' !! STORAGE_KEY = Some (Encoded (DayData_json yesterday)) ∧
    loadWeeklyData ls' = (Ok (JArr []), ls').
Proof.
  apply (import_overwrites (λ _, NaN) _ (DayData_json yesterday) [] rolled_over).
  - reflexivity.
  - right. exists 1%Z. split; [reflexivity|lia].
  - reflexivity.
  - reflexivity.
  - reflexivity.
Defined.


End PersistenceFacts.

(** ** More properties of the session state machine *)

Module SessionFacts.
Import Hook HookFacts UtilsFacts.

(** X11. A stopwatch session counts callbacks: [n] callbacks, whenever
    they run, add exactly [n] seconds to the category and change
    nothing else. *)
Theorem stopwatch_counts_callbacks s id name c z (ticks : list Z) :
  intervals s !! id = Some (stopwatch name) →
  categories s !! name = Some c →
  time c = Num z →
  ∃ s',
    run (fires id ticks) s = Ok s' ∧
    categories s'
      = <[name := mkCategoryData (Num (z + Z.of_nat (length ticks))) (color c)]>
          (categories s) ∧
    activeCategory s' = activeCategory s ∧
    intervalRef s' = intervalRef s ∧
    intervals s' = intervals s ∧
    completions s' = completions s.
Proof.
  revert s c z. induction ticks as [|t ticks IH]; intros s c z Hi Hc Hz.
  - exists s. split; [done|]. split; [|done].
    cbn. rewrite Z.add_0_r, <-Hz. symmetry. apply insert_id. by destruct c.
  - cbn -[Z.of_nat]. rewrite (fire_stopwatch _ _ _ _ _ Hi Hc).
    edestruct (IH (setCategories
                     <[name := mkCategoryData (number_add (time c) (Num 1)) (color c)]> s))
      as (s' & Hrun & Hcats & Ha & Hr & Hint & Hd).
    { exact Hi. }
    { cbn. apply lookup_insert_eq. }
    { cbn. by rewrite Hz. }
    exists s'. split; [exact Hrun|]. split; [|done].
    rewrite Hcats. cbn -[Z.of_nat]. rewrite insert_insert_eq.
    do 3 f_equal. lia.
Qed.

(** What a callback that returns has done to the store: nothing, or
    added whole seconds to one entry. *)
Lemma fire_categories id now s s' :
  fire id now s = Ok s' →
  categories s' = categories s ∨
  ∃ name c credit,
    categories s !! name = Some c ∧ (0 ≤ credit)%Z ∧
    categories s'
      = <[name := mkCategoryData (number_add (time c) (Num credit)) (color c)]>
          (categories s).
Proof.
  unfold fire.
  destruct (intervals s !! id) as [[name|name ringtone startTime endTime elapsed]|].
  - unfold stopwatch_tick. destruct (categories s !! name) as [c|] eqn:Hc; [|done].
    intros Heq; injection Heq as Heq; rewrite <-Heq.
    right. exists name, c, 1%Z. split; [done|]. split; [lia|done].
  - unfold countdown_tick.
    destruct (_ && _) eqn:Hguard.
    + destruct (categories s !! name) as [c|] eqn:Hc; [|done].
      apply andb_true_iff in Hguard as [Hinc _].
      apply bool_decide_eq_true in Hinc.
      cbv beta iota zeta.
      destruct (bool_decide (now >= endTime)%Z);
        intros Heq; injection Heq as Heq; rewrite <-Heq; cbn;
        try (destruct (intervalRef s); cbn);
        right; eexists name, c, _; (split; [done|]); (split; [|done]); lia.
    + cbv beta iota zeta.
      destruct (bool_decide (now >= endTime)%Z);
        intros Heq; injection Heq as Heq; rewrite <-Heq; cbn;
        try (destruct (intervalRef s); cbn); by left.
  - intros Heq; injection Heq as Heq; rewrite <-Heq. by left.
Qed.

(** X12. An interval callback that returns only adds time: the store
    keeps its names and their colors, and each recorded time grows by a
    whole number of seconds, zero or more. *)
Theorem tick_only_adds_time id now s s' :
  plain (names_of (Fire id) s) →
  fire id now s = Ok s' →
  ∀ k,
    match categories s !! k, categories s' !! k with
    | None, None => True
    | Some c, Some c' =>
        color c' = color c ∧
        ∃ credit, (0 ≤ credit)%Z ∧ time c' = number_add (time c) (Num credit)
    | _, _ => False
    end.
Proof.
  intros _ Hfire k.
  destruct (fire_categories _ _ _ _ Hfire)
    as [->|(name & c & credit & Hc & Hcredit & ->)].
  - destruct (categories s !! k) as [c|]; [|done].
    split; [done|]. exists 0%Z. by rewrite number_add_0_r.
  - destruct (decide (k = name)) as [->|Hne].
    + rewrite Hc, lookup_insert_eq. split; [done|]. by exists credit.
    + rewrite lookup_insert_ne by done.
      destruct (categories s !! k) as [c0|]; [|done].
      split; [done|]. exists 0%Z. by rewrite number_add_0_r.
Qed.

(** X13. [deleteCategory] succeeds exactly for a name that is not blank
    and has an entry, and a failed call changes nothing.  A successful
    one removes the entry and leaves no interval adding to the deleted
    name: the session is stopped when the deleted category is the
    active one, and left alone otherwise. *)
Theorem deleteCategory_stops_its_session name s :
  inherited name = false →
  single_interval s → targets_active s →
  ∃ ok s',
    deleteCategory name s = (ok, s') ∧
    (ok = true ↔ blank name = false ∧ is_Some (categories s !! name)) ∧
    (ok = false → s' = s) ∧
    (ok = true →
       categories s' = delete name (categories s) ∧
       (∀ id cb, intervals s' !! id = Some cb → target cb ≠ name) ∧
       (activeCategory s = Some name → activeCategory s' = None ∧ intervals s' = ∅) ∧
       (activeCategory s ≠ Some name →
          activeCategory s' = activeCategory s ∧ intervals s' = intervals s)).
Proof.
  intros _ Hs Ht. unfold deleteCategory.
  destruct (blank name) eqn:Hb.
  { exists false, s. split; [done|]. split; [|done]. split; [done|]. by intros [? _]. }
  destruct (decide (is_Some (categories s !! name))) as [Hc|Hc].
  2: { rewrite (bool_decide_eq_false_2 _ Hc). cbn.
       exists false, s. split; [done|]. split; [|done]. split; [done|].
       by intros [_ ?]. }
  rewrite (bool_decide_eq_true_2 _ Hc). cbn -[stopActive].
  eexists true, _. split; [reflexivity|]. split; [done|]. split; [done|]. intros _.
  destruct (stopActive_intervals s Hs) as (Hi & Hr & Ha & Hn & Hcat & Hd).
  case_bool_decide as Hact.
  - split; [cbn -[stopActive]; by rewrite Hcat|].
    split; [|split; [done|done]].
    intros id cb Hl. cbn -[stopActive] in Hl. by rewrite Hi, lookup_empty in Hl.
  - split; [done|]. split; [|split; [done|done]].
    intros id cb Hl Heq. cbn in Hl. specialize (Ht _ _ Hl). by rewrite Heq in Ht.
Qed.

Lemma stopActive_categories s : categories (stopActive s) = categories s.
Proof.
  unfold stopActive. destruct (intervalRef s); [|done]. by case_bool_decide.
Qed.

(** X14. No call of the hook and no interval callback puts a blank name
    into the store.  The recorded times stay non-negative numbers under
    every event but one: an [editCategory] that succeeds on an old name
    without an entry. *)
Theorem store_stays_valid now e s s' :
  plain (names_of e s) →
  step now e s = Ok s' →
  (no_blank_names (categories s) → no_blank_names (categories s')) ∧
  (valid_times (categories s) →
   (∀ oldName newName newColor,
      e = EditCategory oldName newName newColor →
      (editCategory oldName newName newColor s).1 = true →
      is_Some (categories s !! oldName)) →
   valid_times (categories s')).
Proof.
  intros Hplain.
  destruct e as [name|name seconds ringtone| |name color|oldName newName newColor|name|id];
    cbn -[startCategory startTimer stopActive addCategory editCategory deleteCategory].
  - intros [= <-]. unfold startCategory, setInterval. cbn -[stopActive].
    by rewrite stopActive_categories.
  - intros [= <-]. unfold startTimer, setInterval. cbn -[stopActive].
    by rewrite stopActive_categories.
  - intros [= <-]. by rewrite stopActive_categories.
  - intros [= <-]. unfold addCategory.
    destruct (blank name) eqn:Hb; [done|]. case_bool_decide; [done|]. cbn. split.
    + intros Hnb k c Hk. apply lookup_insert_Some in Hk as [[<- _]|[_ Hk]]; [done|].
      by eapply Hnb.
    + intros Hv _ k c Hk. apply lookup_insert_Some in Hk as [[_ <-]|[_ Hk]].
      * by exists 0%Z.
      * by eapply Hv.
  - intros [= <-].
    assert ((editCategory oldName newName newColor s).1 = false →
            (editCategory oldName newName newColor s).2 = s) as Hfail.
    { unfold editCategory. destruct (_ || _); [done|]. destruct (_ && _); [done|].
      by case_bool_decide. }
    destruct (editCategory oldName newName newColor s).1 eqn:Hok;
      [|by rewrite Hfail].
    clear Hfail. pose proof Hok as Hok'. revert Hok. unfold editCategory.
    destruct (blank oldName) eqn:Hb1; [done|].
    destruct (blank newName) eqn:Hb2; [done|]. cbn [orb].
    destruct (_ && _); [done|]. intros _.
    assert (∀ (m' : gmap string CategoryData) cd,
              (∀ k c, m' !! k = Some c → k ≠ newName → categories s !! k = Some c) →
              m' !! newName = Some cd →
              (no_blank_names (categories s) → no_blank_names m') ∧
              (valid_times (categories s) →
               (∃ z, time cd = Num z ∧ (0 ≤ z)%Z) → valid_times m')) as Hframe.
    { intros m' cd Hsub Hnew. split.
      - intros Hnb k c Hk. destruct (decide (k = newName)) as [->|Hne]; [done|].
        eapply Hnb. by eapply Hsub.
      - intros Hv Hcd k c Hk. destruct (decide (k = newName)) as [->|Hne].
        + rewrite Hnew in Hk. by injection Hk as <-.
        + eapply Hv. by eapply Hsub. }
    set (cd := match categories s !! oldName with
               | Some c => mkCategoryData (time c) newColor
               | None => mkCategoryData NaN newColor
               end).
    assert (valid_times (categories s) → is_Some (categories s !! oldName) →
            ∃ z, time cd = Num z ∧ (0 ≤ z)%Z) as Hcd.
    { intros Hv [c Hc]. subst cd. rewrite Hc. cbn. by eapply Hv. }
    case_bool_decide as Hne.
    + destruct (Hframe (<[newName:=cd]> (delete oldName (categories s))) cd) as [H1 H2].
      { intros k c Hk Hk'. rewrite lookup_insert_ne in Hk by done.
        by apply lookup_delete_Some in Hk as [_ ?]. }
      { apply lookup_insert_eq. }
      split; [by case_bool_decide|].
      intros Hv Hold. case_bool_decide; cbn; apply H2; try done;
        apply Hcd; try done; exact (Hold oldName newName newColor eq_refl Hok').
    + destruct (Hframe (<[oldName:=cd]> (categories s)) cd) as [H1 H2].
      { intros k c Hk Hk'. apply lookup_insert_Some in Hk as [[<- _]|[_ Hk]]; [|done].
        destruct Hk'. by destruct (decide (oldName = newName)). }
      { assert (oldName = newName) as -> by (by destruct (decide (oldName = newName))).
        apply lookup_insert_eq. }
      split; [done|]. intros Hv Hold. cbn. apply H2; [done|].
      apply Hcd; [done|]. exact (Hold oldName newName newColor eq_refl Hok').
  - intros [= <-]. unfold deleteCategory.
    destruct (_ || _); [done|]. cbn [snd].
    assert (categories (setCategories (delete name)
              (if bool_decide (activeCategory s = Some name) then stopActive s else s))
            = delete name (categories s)) as ->.
    { case_bool_decide; [|done]. cbn -[stopActive]. by rewrite stopActive_categories. }
    split.
    + intros Hnb k c Hk. apply lookup_delete_Some in Hk as [_ Hk]. by eapply Hnb.
    + intros Hv _ k c Hk. apply lookup_delete_Some in Hk as [_ Hk]. by eapply Hv.
  - intros Hfire.
    destruct (fire_categories _ _ _ _ Hfire)
      as [->|(name & c & credit & Hc & Hcredit & ->)]; [split; [done|by intros]|].
    split.
    + intros Hnb k c' Hk. apply lookup_insert_Some in Hk as [[<- _]|[_ Hk]];
        by eapply Hnb.
    + intros Hv _ k c' Hk. apply lookup_insert_Some in Hk as [[<- <-]|[_ Hk]];
        [|by eapply Hv].
      destruct (Hv _ _ Hc) as (z & Hz & Hz0). cbn. rewrite Hz.
      exists (z + credit)%Z. split; [done|lia].
Qed.

(** X15. An [editCategory] of an existing category to a name that is
    free, or to its own name, succeeds: the entry moves to the new name
    with its time and the new color, and the active category follows
    the rename.  The running interval is left as it is. *)
Theorem editCategory_keeps_time oldName newName newColor s c :
  inherited newName = false →
  blank oldName = false → blank newName = false →
  categories s !! oldName = Some c →
  (oldName ≠ newName → categories s !! newName = None) →
  ∃ s',
    editCategory oldName newName newColor s = (true, s') ∧
    categories s'
      = <[newName := mkCategoryData (time c) newColor]> (delete oldName (categories s)) ∧
    activeCategory s' = (if bool_decide (activeCategory s = Some oldName)
                         then Some newName else activeCategory s) ∧
    intervals s' = intervals s ∧
    intervalRef s' = intervalRef s.
Proof.
  intros _ Hb1 Hb2 Hold Hnew. unfold editCategory. rewrite Hb1, Hb2, Hold. cbn [orb].
  destruct (decide (oldName = newName)) as [<-|Hne].
  - rewrite (bool_decide_eq_false_2 (oldName ≠ oldName)) by (intros H; by apply H).
    cbn. eexists. split; [reflexivity|]. cbn.
    split; [by rewrite insert_delete_eq|]. split; [|done]. by case_bool_decide.
  - rewrite (bool_decide_eq_true_2 (oldName ≠ newName)) by done.
    rewrite (bool_decide_eq_false_2 (is_Some (categories s !! newName))).
    2: { rewrite Hnew by done. by intros [? ?]. }
    cbn. eexists. split; [reflexivity|]. by case_bool_decide.
Qed.

(** X16. [addCategory] turns down a blank name and a name that has an
    entry, changing nothing.  Any other name gets a new entry with time
    zero and the given color; adding it a second time fails, and
    deleting it again, when it is not the active category, gives back
    the state before the call. *)
Theorem addCategory_contract name color s :
  (blank name = true ∨ is_Some (categories s !! name) →
     addCategory name color s = (false, s)) ∧
  (inherited name = false → blank name = false → categories s !! name = None →
     ∃ s1,
       addCategory name color s = (true, s1) ∧
       categories s1 = <[name := mkCategoryData (Num 0) color]> (categories s) ∧
       (∀ color', addCategory name color' s1 = (false, s1)) ∧
       (activeCategory s ≠ Some name → deleteCategory name s1 = (true, s))).
Proof.
  split.
  - intros [Hb|Hc]; unfold addCategory.
    + by rewrite Hb.
    + destruct (blank name); [done|]. by rewrite bool_decide_eq_true_2.
  - intros _ Hb Hc. unfold addCategory at 1. rewrite Hb.
    rewrite bool_decide_eq_false_2 by (rewrite Hc; by intros [? ?]).
    eexists. split; [reflexivity|]. split; [done|]. split.
    + intros color'. unfold addCategory. rewrite Hb.
      rewrite bool_decide_eq_true_2; [done|]. cbn. rewrite lookup_insert_eq. eauto.
    + intros Hact. unfold deleteCategory. rewrite Hb. cbn.
      rewrite lookup_insert_eq.
      rewrite (bool_decide_eq_true_2 (is_Some (Some _))) by eauto. cbn.
      rewrite bool_decide_eq_false_2 by done. f_equal.
      destruct s as [cats a r t i n d]. unfold setCategories. cbn in *.
      f_equal. by apply delete_insert_id.
Qed.

(** Every character that [trim] strips is blank, alone and in a row. *)
Lemma blank_white_space :
  Forall (λ w, blank w = true) white_space ∧
  blank (foldr String.append "" white_space) = true ∧
  blank (foldr String.append "Reading" white_space) = false.
Proof.
  split; [|split; vm_compute; reflexivity].
  unfold white_space. repeat (constructor; [vm_compute; reflexivity|]). constructor.
Qed.

Lemma reading_running_invariants :
  single_interval reading_running ∧ targets_active reading_running.
Proof.
  pose proof (single_interval_init reading) as Hinit.
  split; [by apply single_interval_startCategory|].
  destruct (startCategory_spec "Reading" (init reading) Hinit) as (Hi & _ & Ha & _).
  intros id cb Hcb. fold reading_running in Hi, Ha. rewrite Hi in Hcb.
  apply lookup_singleton_Some in Hcb as [_ <-]. exact Ha.
Qed.

Lemma reading_valid :
  no_blank_names reading ∧ valid_times reading.
Proof.
  split; intros k c Hk; unfold reading in Hk;
    apply lookup_singleton_Some in Hk as [<- <-].
  - reflexivity.
  - exists 0%Z. split; [reflexivity|lia].
Qed.

(** Three callbacks of the stopwatch on "Reading", the last one late. *)
Lemma stopwatch_counts_callbacks_witness :
  intervals reading_running !! 1 = Some (stopwatch "Reading") ∧
  categories reading_running !! "Reading" = Some (mkCategoryData (Num 0) "#4C8BF5") ∧
  ∃ s',
    run (fires 1 [1000; 2000; 7000]%Z) reading_running = Ok s' ∧
    time_of "Reading" s' = Some (Num 3).
Proof.
  assert (intervals reading_running !! 1 = Some (stopwatch "Reading")) as Hi
    by (vm_compute; reflexivity).
  assert (categories reading_running !! "Reading"
          = Some (mkCategoryData (Num 0) "#4C8BF5")) as Hc
    by (vm_compute; reflexivity).
  split; [exact Hi|]. split; [exact Hc|].
  destruct (stopwatch_counts_callbacks reading_running 1 "Reading" _ 0
              [1000; 2000; 7000]%Z Hi Hc eq_refl) as (s' & Hrun & Hcats & _).
  exists s'. split; [exact Hrun|].
  unfold time_of. rewrite Hcats, lookup_insert_eq. reflexivity.
Defined.

(** The first callback of the stopwatch on "Reading". *)
Lemma tick_only_adds_time_witness :
  plain (names_of (Fire 1) reading_running) ∧
  ∃ s',
    fire 1 1000 reading_running = Ok s' ∧
    ∀ k,
      match categories reading_running !! k, categories s' !! k with
      | None, None => True
      | Some c, Some c' =>
          color c' = color c ∧
          ∃ credit, (0 ≤ credit)%Z ∧ time c' = number_add (time c) (Num credit)
      | _, _ => False
      end.
Proof.
  assert (plain (names_of (Fire 1) reading_running)) as Hplain
    by (vm_compute; repeat constructor).
  split; [exact Hplain|].
  destruct (fire 1 1000 reading_running) as [s'|e] eqn:Hfire;
    [|vm_compute in Hfire; discriminate].
  exists s'. split; [reflexivity|].
  exact (tick_only_adds_time 1 1000 reading_running s' Hplain Hfire).
Defined.

(** Deleting "Reading" while its stopwatch runs. *)
Lemma deleteCategory_stops_its_session_witness :
  inherited "Reading" = false ∧
  single_interval reading_running ∧ targets_active reading_running ∧
  ∃ s',
    deleteCategory "Reading" reading_running = (true, s') ∧
    categories s' = delete "Reading" (categories reading_running) ∧
    activeCategory s' = None ∧ intervals s' = ∅.
Proof.
  destruct reading_running_invariants as [Hs Ht].
  split; [reflexivity|]. split; [exact Hs|]. split; [exact Ht|].
  destruct (deleteCategory_stops_its_session "Reading" reading_running eq_refl Hs Ht)
    as (ok & s' & Hdel & Hok & _ & Hdone).
  assert (ok = true) as Htrue.
  { apply Hok. split; [reflexivity|]. vm_compute. eauto. }
  destruct (Hdone Htrue) as (Hcats & _ & Hactive & _).
  destruct Hactive as [Ha Hi]; [vm_compute; reflexivity|].
  subst ok. exists s'. split; [exact Hdel|]. split; [exact Hcats|].
  split; [exact Ha|exact Hi].
Defined.

(** Adding "Work" to the store of "Reading". *)
Lemma store_stays_valid_witness :
  plain (names_of (AddCategory "Work" "#9C27B0") (init reading)) ∧
  ∃ s',
    step 0 (AddCategory "Work" "#9C27B0") (init reading) = Ok s' ∧
    no_blank_names (categories s') ∧
    valid_times (categories s').
Proof.
  assert (plain (names_of (AddCategory "Work" "#9C27B0") (init reading))) as Hplain
    by (vm_compute; repeat constructor).
  split; [exact Hplain|].
  destruct (step 0 (AddCategory "Work" "#9C27B0") (init reading)) as [s'|e] eqn:Hstep;
    [|vm_compute in Hstep; discriminate].
  destruct (store_stays_valid 0 _ (init reading) s' Hplain Hstep) as [Hnb Hv].
  destruct reading_valid as [Hnb0 Hv0].
  exists s'. split; [reflexivity|]. split; [exact (Hnb Hnb0)|].
  apply (Hv Hv0). intros ??? [=].
Defined.

(** Renaming "Reading" to "Books" while its stopwatch runs. *)
Lemma editCategory_keeps_time_witness :
  inherited "Books" = false ∧ blank "Reading" = false ∧ blank "Books" = false ∧
  categories reading_running !! "Reading" = Some (mkCategoryData (Num 0) "#4C8BF5") ∧
  categories reading_running !! "Books" = None ∧
  ∃ s',
    editCategory "Reading" "Books" "#2BA24C" reading_running = (true, s') ∧
    time_of "Books" s' = Some (Num 0) ∧
    activeCategory s' = Some "Books" ∧
    intervals s' = intervals reading_running.
Proof.
  assert (categories reading_running !! "Reading"
          = Some (mkCategoryData (Num 0) "#4C8BF5")) as Hc
    by (vm_compute; reflexivity).
  assert (categories reading_running !! "Books" = None) as Hfree
    by (vm_compute; reflexivity).
  split; [reflexivity|]. split; [reflexivity|]. split; [reflexivity|].
  split; [exact Hc|]. split; [exact Hfree|].
  destruct (editCategory_keeps_time "Reading" "Books" "#2BA24C" reading_running _
              eq_refl eq_refl eq_refl Hc (λ _, Hfree))
    as (s' & Hedit & Hcats & Ha & Hi & _).
  exists s'. split; [exact Hedit|].
  split; [unfold time_of; rewrite Hcats, lookup_insert_eq; reflexivity|].
  split; [rewrite Ha; vm_compute; reflexivity|exact Hi].
Defined.

(** A countdown of ten seconds on "Work" whose callbacks run at 100,
    4200 and 9990 ms, then at 10050 ms, past the deadline. *)
Lemma countdown_credit_below_duration_witness :
  work !! "Work" = Some (mkCategoryData (Num 0) "#9C27B0") ∧
  (0 < 10)%Z ∧
  Forall (λ t, t < 0 + 10 * 1000)%Z [100; 4200; 9990]%Z ∧
  (0 + 10 * 1000 ≤ 10050)%Z ∧
  ∃ s credited,
    run ((0%Z, StartTimer "Work" 10 "")
           :: ((λ t, (t, Fire 1)) <$> ([100; 4200; 9990] ++ 10050 :: [10100])%Z))
        (init work) = Ok s ∧
    time_of "Work" s = Some (number_add (Num 0) (Num credited)) ∧
    (0 ≤ credited < 10)%Z ∧
    activeCategory s = None ∧
    completions s = ["Work"].
Proof.
  assert (Forall (λ t, t < 0 + 10 * 1000)%Z [100; 4200; 9990]%Z) as Hbefore.
  { repeat constructor; lia. }
  split; [reflexivity|]. split; [lia|]. split; [exact Hbefore|]. split; [lia|].
  exact (countdown_credit_below_duration work "Work" "" _ 10 0 10050
           [100; 4200; 9990]%Z [10100]%Z eq_refl ltac:(lia) Hbefore ltac:(lia)).
Defined.

End SessionFacts.

(** ** Properties of the summary totals *)

Module SummaryFacts.
Import Summary UtilsFacts.

Lemma foldl_number_add acc l :
  foldl number_add acc l = number_add acc (number_sum l).
Proof.
  unfold number_sum. revert acc. induction l as [|x l IH]; intros acc.
  - cbn. by rewrite number_add_0_r.
  - cbn [foldl].
    rewrite (IH (number_add acc x)), (IH (number_add (Num 0) x)), number_add_0_l.
    by rewrite number_add_associative.
Qed.

Lemma getTotalTime_acc acc (cats : list (string * CategoryData)) :
  foldl (λ acc cat, number_add acc (time cat.2)) acc cats
  = number_add acc (getTotalTime cats).
Proof.
  unfold getTotalTime. revert acc. induction cats as [|e cats IH]; intros acc.
  - cbn. by rewrite number_add_0_r.
  - cbn [foldl].
    rewrite (IH (number_add acc _)), (IH (number_add (Num 0) _)), number_add_0_l.
    by rewrite number_add_associative.
Qed.

Lemma getTotalTime_cons e (cats : list (string * CategoryData)) :
  getTotalTime (e :: cats) = number_add (time e.2) (getTotalTime cats).
Proof.
  unfold getTotalTime at 1. cbn [foldl]. by rewrite getTotalTime_acc, number_add_0_l.
Qed.

Lemma getTotalTime_credit k data combined :
  inherited k = false →
  getTotalTime (credit k data combined)
  = number_add (getTotalTime combined) (time data).
Proof.
  intros Hk. induction combined as [|[k' c] rest IH]; cbn [credit].
  - rewrite Hk, getTotalTime_cons. cbn [snd time].
    by rewrite number_add_0_l, number_add_comm.
  - destruct (String.eqb k' k); rewrite !getTotalTime_cons; cbn [snd time].
    + by rewrite !number_add_associative, (number_add_comm (time data)).
    + by rewrite IH, number_add_associative.
Qed.

Lemma entry_of_credit k data combined k' :
  entry_of k' (credit k data combined) =
  if String.eqb k k'
  then match entry_of k combined with
       | Some c => Some (mkCategoryData (number_add (time c) (time data)) (color c))
       | None =>
           if inherited k then None
           else Some (mkCategoryData (number_add (Num 0) (time data)) (color data))
       end
  else entry_of k' combined.
Proof.
  induction combined as [|[k0 c] rest IH]; cbn [credit entry_of].
  - destruct (inherited k); cbn [entry_of]; by destruct (String.eqb k k').
  - destruct (String.eqb k0 k) eqn:E0; cbn [entry_of].
    + apply String.eqb_eq in E0 as ->. by destruct (String.eqb k k').
    + rewrite IH. destruct (String.eqb k k') eqn:E1; [|done].
      apply String.eqb_eq in E1 as <-. by rewrite E0.
Qed.

Lemma credit_keys k data combined :
  (credit k data combined).*1 =
  if bool_decide (k ∈ combined.*1) then combined.*1
  else if inherited k then combined.*1 else combined.*1 ++ [k].
Proof.
  induction combined as [|[k0 c] rest IH]; cbn [credit].
  - rewrite bool_decide_eq_false_2 by apply not_elem_of_nil.
    by destruct (inherited k).
  - destruct (String.eqb k0 k) eqn:E0; cbn.
    + apply String.eqb_eq in E0 as ->. rewrite bool_decide_eq_true_2; [done|left].
    + apply String.eqb_neq in E0. rewrite IH.
      destruct (decide (k ∈ rest.*1)) as [Hin|Hnin].
      * rewrite !bool_decide_eq_true_2; [done|by right|done].
      * rewrite !bool_decide_eq_false_2; [by destruct (inherited k)| |done].
        intros Hin. apply elem_of_cons in Hin as [->|Hin]; done.
Qed.

Lemma combinedCategories_flat days :
  combinedCategories days
  = foldl (λ combined entry, credit entry.1 entry.2 combined) [] (days ≫= categories).
Proof.
  unfold combinedCategories. generalize (@nil (string * CategoryData)).
  induction days as [|d days IH]; intros acc; [done|].
  cbn. by rewrite foldl_app, IH.
Qed.

(** X18. When no category name is one that every object inherits, the
    combined entries of a period add up to the sum of its days' totals:
    the accumulation loses and invents no time. *)
Theorem combined_total_is_sum_of_days (days : list DayData) :
  plain (days ≫= categories).*1 →
  getTotalTime (combinedCategories days)
  = number_sum ((λ day, getTotalTime (categories day)) <$> days).
Proof.
  unfold combinedCategories, plain.
  assert (∀ acc,
            Forall (λ name, inherited name = false) (days ≫= categories).*1 →
            getTotalTime
              (foldl (λ combined day,
                        foldl (λ combined entry, credit entry.1 entry.2 combined)
                              combined (categories day)) acc days)
            = number_add (getTotalTime acc)
                (number_sum ((λ day, getTotalTime (categories day)) <$> days))) as Hgen.
  { induction days as [|d days IH]; intros acc Hplain.
    - cbn. by rewrite number_add_0_r.
    - cbn [mbind list_bind] in Hplain. rewrite fmap_app in Hplain.
      apply Forall_app in Hplain as [Hd Hdays].
      cbn [foldl fmap list_fmap]. rewrite IH by done. unfold number_sum at 2. cbn [foldl].
      rewrite foldl_number_add, number_add_0_l, <-number_add_associative. f_equal.
      revert Hd. generalize (categories d). intros cats. revert acc.
      induction cats as [|e cats IHc]; intros acc Hd.
      + cbn. by rewrite number_add_0_r.
      + cbn [fmap list_fmap] in Hd. apply Forall_cons in Hd as [He Hcats].
        cbn [foldl]. rewrite IHc, getTotalTime_credit, getTotalTime_cons by done.
        by rewrite number_add_associative. }
  intros Hplain. rewrite Hgen by done. apply number_add_0_l.
Qed.

(** X19. The combined entries of a period hold each name once.  A name
    that every object inherits gets no entry; any other name the days
    record gets one entry, whose time is the sum of the times recorded
    for it and whose color is that of its first record. *)
Theorem combined_entry_per_category (days : list DayData) :
  NoDup (combinedCategories days).*1 ∧
  ∀ k,
    entry_of k (combinedCategories days) =
    if inherited k then None
    else
      match entries_for k days with
      | [] => None
      | first :: _ =>
          Some (mkCategoryData (number_sum (time <$> entries_for k days)) (color first))
      end.
Proof.
  rewrite combinedCategories_flat. unfold entries_for.
  induction (days ≫= categories) as [|[k0 data] E IH] using rev_ind.
  - split; [constructor|]. intros k. by destruct (inherited k).
  - destruct IH as [Hnodup Hentry]. rewrite foldl_app. cbn [foldl fst snd]. split.
    + rewrite credit_keys. case_bool_decide as Hin; [done|].
      destruct (inherited k0); [done|].
      apply NoDup_app. split; [done|]. split; [|apply NoDup_singleton].
      intros x Hx Hx'. apply list_elem_of_singleton in Hx' as ->. done.
    + intros k. rewrite entry_of_credit, filter_app, fmap_app.
      destruct (String.eqb k0 k) eqn:E0.
      * apply String.eqb_eq in E0 as ->. rewrite Hentry.
        destruct (inherited k); [done|].
        rewrite filter_cons_True, filter_nil by done. cbn [fmap list_fmap snd].
        destruct (snd <$> filter (λ e, e.1 = k) E) as [|first rest]; [done|].
        cbn [time color]. f_equal. f_equal.
        rewrite fmap_app. unfold number_sum. by rewrite foldl_app.
      * apply String.eqb_neq in E0. rewrite Hentry.
        rewrite filter_cons_False, filter_nil by done. by rewrite app_nil_r.
Qed.

(** [yesterday] and a day without activity. *)
Lemma combined_total_is_sum_of_days_witness :
  plain ([yesterday; idle_day] ≫= categories).*1 ∧
  getTotalTime (combinedCategories [yesterday; idle_day]) = Num 1500.
Proof.
  assert (plain ([yesterday; idle_day] ≫= categories).*1) as Hplain
    by (vm_compute; repeat constructor).
  split; [exact Hplain|].
  rewrite (combined_total_is_sum_of_days [yesterday; idle_day] Hplain).
  vm_compute. reflexivity.
Defined.

End SummaryFacts.

(** ** Properties of the color conversions *)

Module ColorFacts.
Import Color.

Local Open Scope Z_scope.

Lemma int32_small z : - 2147483648 ≤ z < 2147483648 → int32 z = z.
Proof.
  intros Hz. unfold int32.
  change (2 ^ 31) with 2147483648. change (2 ^ 32) with 4294967296.
  rewrite Z.mod_small; lia.
Qed.

Lemma lor_disjoint a b k :
  0 ≤ k → 0 ≤ b < 2 ^ k → Z.lor (a * 2 ^ k) b = a * 2 ^ k + b.
Proof.
  intros Hk Hb. symmetry. apply Z.add_nocarry_lor.
  apply Z.bits_inj'. intros n Hn. rewrite Z.land_spec, Z.bits_0.
  destruct (decide (n < k)) as [Hlt|Hge].
  - by rewrite Z.mul_pow2_bits_low.
  - destruct (decide (b = 0)) as [->|Hb0]; [by rewrite Z.bits_0, andb_false_r|].
    rewrite (Z.bits_above_log2 b n), andb_false_r; [done|lia|].
    apply Z.log2_lt_pow2; [lia|].
    assert (2 ^ k ≤ 2 ^ n) by (apply Z.pow_le_mono_r; lia). lia.
Qed.

Lemma packed_channels r g b :
  0 ≤ r ≤ 255 → 0 ≤ g ≤ 255 → 0 ≤ b ≤ 255 →
  bor (bor (bor (shl 1 24) (shl r 16)) (shl g 8)) b
  = 16777216 + 65536 * r + 256 * g + b.
Proof.
  intros Hr Hg Hb.
  assert (shl 1 24 = 1 * 2 ^ 24) as ->.
  { unfold shl. rewrite (int32_small 1) by lia. apply int32_small.
    change (2 ^ 24) with 16777216. lia. }
  assert (shl r 16 = r * 65536) as ->.
  { unfold shl. rewrite (int32_small r) by lia. change (2 ^ 16) with 65536.
    apply int32_small. lia. }
  assert (shl g 8 = g * 256) as ->.
  { unfold shl. rewrite (int32_small g) by lia. change (2 ^ 8) with 256.
    apply int32_small. lia. }
  unfold bor at 3.
  rewrite (int32_small (1 * 2 ^ 24)) by (change (2 ^ 24) with 16777216; lia).
  rewrite (int32_small (r * 65536)) by lia.
  rewrite lor_disjoint by (change (2 ^ 24) with 16777216; lia).
  change (1 * 2 ^ 24) with 16777216.
  unfold bor at 2. rewrite (int32_small (16777216 + _)), (int32_small (g * 256)) by lia.
  replace (16777216 + r * 65536) with ((256 + r) * 2 ^ 16)
    by (change (2 ^ 16) with 65536; lia).
  rewrite lor_disjoint by (change (2 ^ 16) with 65536; lia).
  change (2 ^ 16) with 65536.
  unfold bor. rewrite (int32_small (_ + _)), (int32_small b) by lia.
  replace ((256 + r) * 65536 + g * 256) with ((65536 + 256 * r + g) * 2 ^ 8)
    by (change (2 ^ 8) with 256; lia).
  rewrite lor_disjoint by (change (2 ^ 8) with 256; lia).
  change (2 ^ 8) with 256. lia.
Qed.

Lemma to_hex_step digits q d acc :
  0 ≤ d < 16 → 0 ≤ q → 0 < 16 * q + d →
  to_hex (S digits) (16 * q + d) acc = to_hex digits q (String (hex_digit d) acc).
Proof.
  intros Hd Hq Hpos. cbn [to_hex]. rewrite bool_decide_eq_false_2 by lia.
  replace ((16 * q + d) / 16) with q by (apply Z.div_unique with d; lia).
  replace ((16 * q + d) mod 16) with d by (apply Z.mod_unique with q; lia).
  done.
Qed.

Lemma from_hex_digit d : 0 ≤ d < 16 → from_hex (hex_digit d) = Some d.
Proof.
  intros Hd.
  assert (d = 0 ∨ d = 1 ∨ d = 2 ∨ d = 3 ∨ d = 4 ∨ d = 5 ∨ d = 6 ∨ d = 7 ∨
          d = 8 ∨ d = 9 ∨ d = 10 ∨ d = 11 ∨ d = 12 ∨ d = 13 ∨ d = 14 ∨ d = 15)
    as Hcases by lia.
  repeat (destruct Hcases as [->|Hcases]; [reflexivity|]). by subst.
Qed.


Lemma parse_pair_digits h l :
  0 ≤ h < 16 → 0 ≤ l < 16 →
  parse_pair (hex_digit h) (hex_digit l) = Some (16 * h + l).
Proof. intros Hh Hl. unfold parse_pair. by rewrite !from_hex_digit. Qed.

(** X20. For channels between 0 and 255, [rgbToHex] writes a [#] and
    six hexadecimal digits, and [hexToRgb] reads the three channels
    back from them. *)
Theorem rgbToHex_hexToRgb r g b :
  0 ≤ r ≤ 255 → 0 ≤ g ≤ 255 → 0 ≤ b ≤ 255 →
  hexToRgb (rgbToHex r g b) = mkRGB r g b ∧
  String.length (rgbToHex r g b) = 7%nat.
Proof.
  intros Hr Hg Hb. unfold rgbToHex. rewrite packed_channels by done.
  unfold toString16. rewrite !bool_decide_eq_false_2 by lia.
  pose proof (Z.div_mod r 16 ltac:(lia)) as Er.
  pose proof (Z.div_mod g 16 ltac:(lia)) as Eg.
  pose proof (Z.div_mod b 16 ltac:(lia)) as Eb.
  pose proof (Z.mod_pos_bound r 16 ltac:(lia)).
  pose proof (Z.mod_pos_bound g 16 ltac:(lia)).
  pose proof (Z.mod_pos_bound b 16 ltac:(lia)).
  assert (0 ≤ r / 16 < 16) by (split; [apply Z.div_pos|apply Z.div_lt_upper_bound]; lia).
  assert (0 ≤ g / 16 < 16) by (split; [apply Z.div_pos|apply Z.div_lt_upper_bound]; lia).
  assert (0 ≤ b / 16 < 16) by (split; [apply Z.div_pos|apply Z.div_lt_upper_bound]; lia).
  set (r1 := r / 16) in *. set (r0 := r mod 16) in *.
  set (g1 := g / 16) in *. set (g0 := g mod 16) in *.
  set (b1 := b / 16) in *. set (b0 := b mod 16) in *.
  replace (16777216 + 65536 * r + 256 * g + b)
    with (16 * (16 * (16 * (16 * (16 * (16 * (16 * 0 + 1) + r1) + r0) + g1) + g0) + b1) + b0)
    by lia.
  rewrite !to_hex_step by lia. cbn [to_hex].
  rewrite bool_decide_eq_true_2 by done. cbn [slice1].
  split; [|reflexivity].
  unfold hexToRgb. rewrite !parse_pair_digits by lia. f_equal; lia.
Qed.


(** The blue of the palette. *)
Lemma rgbToHex_hexToRgb_witness :
  rgbToHex 76 139 245 = "#4c8bf5" ∧
  hexToRgb (rgbToHex 76 139 245) = mkRGB 76 139 245.
Proof.
  split; [vm_compute; reflexivity|].
  exact (proj1 (rgbToHex_hexToRgb 76 139 245 ltac:(lia) ltac:(lia) ltac:(lia))).
Defined.

End ColorFacts.
